(** * elbencho worker engine: shallow embedding and checked properties

    Embedded sources:
    - [Worker.cpp]            (Worker::incNumWorkersDone,
                               Worker::incNumWorkersDoneWithError,
                               Worker::checkInterruptionRequest,
                               Worker::applyNumaBinding,
                               Worker::waitForNextPhase)
    - [WorkerManager.h]       (declaration of WorkerManager::checkWorkersDone)
    - [scripts/test_blockdev_rand.sh] (usage, parse_args,
                               find_executable_or_exit, prepare_arg_filenames,
                               prepare_arg_rwmix, check_mounted and the
                               command launch that follows them)

    The mutex of [WorkersSharedData] serialises the critical sections, so a
    critical section is one atomic state transformer of the shared world;
    [condition.wait] is the only point at which other threads are observed,
    and it is modelled by the list of worlds seen at the successive wakeups. *)

From Stdlib Require Import ZArith List String Ascii Bool Lia DecimalString.
From Stdlib Require Import DecimalZ.
From stdpp Require Import base list.

Open Scope Z_scope.

(** ** Machine integers *)

(** [size_t] counters are 64-bit and wrap around. *)
Definition SIZE_MODULUS : Z := 2 ^ 64.

Definition wrap_size_t (z : Z) : Z := z mod SIZE_MODULUS.

(** ** Data model *)

(** [buuids::uuid]: a 128-bit identifier, compared with [==]. *)
Definition uuid : Type := N.

Definition uuid_eqb (a b : uuid) : bool := N.eqb a b.

Inductive Exception : Type :=
| WorkerInterruptedException (what : string)
| WorkerException (what : string).

Inductive Result (A : Type) : Type :=
| Ok (a : A)
| Throw (e : Exception).

Arguments Ok {A} a.
Arguments Throw {A} e.

(** The fields of [Worker] that the embedded functions touch.
    [numStoneWallStats] is a history counter: how many times
    [createStoneWallStats] ran on this worker. *)
Record Worker : Type := mkWorker {
  workerRank : Z;
  isInterruptionRequested : bool;
  stoneWallTriggered : bool;
  numStoneWallStats : nat
}.

(** [WorkersSharedData] together with the workers its [workerVec] points
    to.  A worker is named by its position in [workerVec]; the [this] of a
    member function is such a position, so that the caller and the element of
    the vector visited by a loop are the same object. *)
Record WorkersSharedData : Type := mkShared {
  currentBenchID : uuid;
  numWorkersDone : Z;
  numWorkersDoneWithError : Z;
  workerVec : list Worker
}.

(** ** A state and exception monad for member functions *)

Definition M (A : Type) : Type := WorkersSharedData -> Result A * WorkersSharedData.

Definition ret {A} (a : A) : M A := fun wd => (Ok a, wd).

Definition bind {A B} (m : M A) (k : A -> M B) : M B :=
  fun wd =>
    match m wd with
    | (Ok a, wd') => k a wd'
    | (Throw e, wd') => (Throw e, wd')
    end.

Definition throw {A} (e : Exception) : M A := fun wd => (Throw e, wd).

Definition get : M WorkersSharedData := fun wd => (Ok wd, wd).

Definition modify (f : WorkersSharedData -> WorkersSharedData) : M unit :=
  fun wd => (Ok tt, f wd).

Notation "x <- m ;; k" := (bind m (fun x => k))
  (at level 100, m at next level, right associativity).
Notation "m ;;; k" := (bind m (fun _ => k))
  (at level 100, right associativity).

(** Field readers for the calling worker.  [this] names a worker of the
    pool; the fall-back value stands for a position outside the vector, which
    no member call has. *)
Definition thisWorker (this : nat) (wd : WorkersSharedData) : option Worker :=
  workerVec wd !! this.

Definition thisIsInterruptionRequested (this : nat) (wd : WorkersSharedData) : bool :=
  match thisWorker this wd with
  | Some w => isInterruptionRequested w
  | None => false
  end.

Definition thisStoneWallTriggered (this : nat) (wd : WorkersSharedData) : bool :=
  match thisWorker this wd with
  | Some w => stoneWallTriggered w
  | None => false
  end.

(** ** Helpers whose bodies are outside the embedded sources *)

(** Modelled from the spec: WorkersSharedData::incNumWorkersDoneUnlocked is
    defined in WorkersSharedData.h, which is not among the sources; the spec
    says it "increments the completion counter". *)
Definition WorkersSharedData_incNumWorkersDoneUnlocked : M unit :=
  modify (fun wd =>
    mkShared (currentBenchID wd) (wrap_size_t (numWorkersDone wd + 1))
             (numWorkersDoneWithError wd) (workerVec wd)).

(** Modelled from the spec: WorkersSharedData::incNumWorkersDoneWithError is
    defined in WorkersSharedData.h, which is not among the sources; the spec
    lists it as the operation that "locks internally" and "records an error
    completion", the record being the counter [numWorkersDoneWithError]. *)
Definition WorkersSharedData_incNumWorkersDoneWithError : M unit :=
  modify (fun wd =>
    mkShared (currentBenchID wd) (numWorkersDone wd)
             (wrap_size_t (numWorkersDoneWithError wd + 1)) (workerVec wd)).

(** Modelled from the spec: Worker::createStoneWallStats is defined in
    Worker.h, which is not among the sources; the spec describes a snapshot
    taken for a worker together with "a phase-scoped latch to avoid duplicate
    capture", the latch being the field [stoneWallTriggered] that
    Worker::incNumWorkersDone tests. *)
Definition createStoneWallStats (w : Worker) : Worker :=
  mkWorker (workerRank w) (isInterruptionRequested w) true
           (S (numStoneWallStats w)).

(** Modelled from the spec: WorkerManager::checkWorkersDone is only declared
    in WorkerManager.h; the spec says it reports [numWorkersDone ==
    numWorkers] and hands back the count through its out parameter. *)
Definition checkWorkersDone (wd : WorkersSharedData) : bool * Z :=
  (numWorkersDone wd =? Z.of_nat (length (workerVec wd)), numWorkersDone wd).

(** ** Worker.cpp *)

(** [for(Worker* worker : *workersSharedData->workerVec)
       worker->createStoneWallStats();] *)
Definition createStoneWallStatsForAll : M unit :=
  modify (fun wd =>
    mkShared (currentBenchID wd) (numWorkersDone wd)
             (numWorkersDoneWithError wd)
             (createStoneWallStats <$> workerVec wd)).

(** Worker::incNumWorkersDone.  The scoped lock spans the whole body. *)
Definition incNumWorkersDone (this : nat) : M unit :=
  WorkersSharedData_incNumWorkersDoneUnlocked ;;;
  wd <- get ;;
  if (numWorkersDone wd =? 1) && negb (thisStoneWallTriggered this wd)
  then createStoneWallStatsForAll
  else ret tt.

(** Worker::incNumWorkersDoneWithError.  The debug line written through
    [ErrLogger] is not part of the modelled state. *)
Definition incNumWorkersDoneWithError (this : nat) : M unit :=
  WorkersSharedData_incNumWorkersDoneWithError.

Definition INTERRUPT_MSG : string :=
  "Received friendly request to interrupt execution.".

(** Worker::checkInterruptionRequest. *)
Definition checkInterruptionRequest (this : nat) : M unit :=
  wd <- get ;;
  if thisIsInterruptionRequested this wd
  then throw (WorkerInterruptedException INTERRUPT_MSG)
  else ret tt.

(** Outcome of a call that may still be parked on the condition variable
    when the observed wakeups are used up. *)
Inductive WaitOutcome : Type :=
| Returned (wd : WorkersSharedData)
| Raised (e : Exception) (wd : WorkersSharedData)
| StillBlocked.

(** The [while] loop of Worker::waitForNextPhase.  Each element of [wakeups]
    is the shared world as the other threads left it when
    [condition.wait(lock)] returns, spuriously or after a notification. *)
Fixpoint waitLoop (this : nat) (oldBenchID : uuid)
    (wakeups : list WorkersSharedData) (wd : WorkersSharedData) : WaitOutcome :=
  if uuid_eqb oldBenchID (currentBenchID wd) then
    match wakeups with
    | [] => StillBlocked
    | woken :: rest =>
        match checkInterruptionRequest this woken with
        | (Throw e, wd') => Raised e wd'
        | (Ok _, wd') => waitLoop this oldBenchID rest wd'
        end
    end
  else Returned wd.

(** Worker::waitForNextPhase. *)
Definition waitForNextPhase (this : nat) (oldBenchID : uuid)
    (wakeups : list WorkersSharedData) (wd : WorkersSharedData) : WaitOutcome :=
  match checkInterruptionRequest this wd with
  | (Throw e, wd') => Raised e wd'
  | (Ok _, wd') => waitLoop this oldBenchID wakeups wd'
  end.

(** [ProgArgs], read-only for the worker: the configured NUMA zone list
    ([IntVec], a vector of [int]). *)
Record ProgArgs : Type := mkProgArgs {
  getNumaZonesVec : list Z
}.

(** The NUMA toolkit the worker calls into.  [bindToNumaZone] answers [None]
    when the binding succeeded and [Some what] when it threw a
    [ProgException] whose [what()] is [what]. *)
Class NumaTk : Type := {
  isNumaInfoAvailable : bool;
  bindToNumaZone : string -> option string
}.

(** [std::to_string(int)]. *)
Definition to_string (z : Z) : string := NilEmpty.string_of_int (Z.to_int z).

(** Worker::applyNumaBinding.  The second component lists the zone
    identifiers handed to [NumaTk::bindToNumaZone], in call order. *)
Definition applyNumaBinding `{NumaTk} (progArgs : ProgArgs) (this : Worker)
    : Result unit * list string :=
  let numaZonesVec := getNumaZonesVec progArgs in
  if (Nat.eqb (length numaZonesVec) 0) || negb isNumaInfoAvailable
  then (Ok tt, [])
  else
    let zoneNum :=
      default 0 (numaZonesVec !!
                   Z.to_nat (workerRank this mod Z.of_nat (length numaZonesVec))) in
    match bindToNumaZone (to_string zoneNum) with
    | None => (Ok tt, [to_string zoneNum])
    | Some what => (Throw (WorkerException what), [to_string zoneNum])
    end.

(** A toolkit with NUMA information that refuses zone 3. *)
Definition refusingZone3 : NumaTk :=
  {| isNumaInfoAvailable := true;
     bindToNumaZone zone :=
       if String.eqb zone "3" then Some "no such zone"%string else None |}.

(** ** Phases as sequences of completion reports *)

(** One report of a worker that left its phase loop.  The mutex makes every
    report atomic, so a phase is a list of reports in lock-acquisition
    order. *)
Inductive Completion : Type :=
| Done (rank : nat)
| DoneWithError (rank : nat).

Definition reporter (c : Completion) : nat :=
  match c with Done r => r | DoneWithError r => r end.

Definition isDone (c : Completion) : bool :=
  match c with Done _ => true | DoneWithError _ => false end.

Definition isDoneWithError (c : Completion) : bool := negb (isDone c).

Definition report (c : Completion) : M unit :=
  match c with
  | Done r => incNumWorkersDone r
  | DoneWithError r => incNumWorkersDoneWithError r
  end.

Fixpoint reports (cs : list Completion) : M unit :=
  match cs with
  | [] => ret tt
  | c :: rest => report c ;;; reports rest
  end.

Definition afterReports (cs : list Completion) (wd : WorkersSharedData)
    : WorkersSharedData :=
  snd (reports cs wd).

(** The shared world right after a phase was published: both counters at
    zero and no worker with a stonewall latch or snapshot yet. *)
Definition freshWorker (w : Worker) : bool :=
  negb (stoneWallTriggered w) && Nat.eqb (numStoneWallStats w) 0.

Definition freshPhase (wd : WorkersSharedData) : bool :=
  (numWorkersDone wd =? 0) && (numWorkersDoneWithError wd =? 0)
  && forallb freshWorker (workerVec wd).

(** A worker whose stonewall snapshot was taken exactly once. *)
Definition capturedWorker (w : Worker) : bool :=
  stoneWallTriggered w && Nat.eqb (numStoneWallStats w) 1.

(** Every report comes from a worker of the pool. *)
Definition reportersInPool (wd : WorkersSharedData) (cs : list Completion) : bool :=
  forallb (fun c => Nat.ltb (reporter c) (length (workerVec wd))) cs.

(** How many of the reports in [cs] were made by worker [rank]. *)
Definition reportsBy (rank : nat) (cs : list Completion) : nat :=
  length (List.filter (fun c => Nat.eqb (reporter c) rank) cs).

Definition hasFinished (rank : nat) (cs : list Completion) : bool :=
  existsb (fun c => Nat.eqb (reporter c) rank) cs.

(** Every worker of a pool of [n] made exactly one report. *)
Definition everyWorkerOnce (n : nat) (cs : list Completion) : bool :=
  forallb (fun r => Nat.eqb (reportsBy r cs) 1) (seq 0 n).

Definition numDone (cs : list Completion) : nat := length (List.filter isDone cs).

Definition numDoneWithError (cs : list Completion) : nat :=
  length (List.filter isDoneWithError cs).

(** A world in which a worker parked in [waitForNextPhase] keeps waiting:
    the phase identifier is still the old one and nobody asked the worker to
    stop. *)
Definition keepsWaiting (this : nat) (oldBenchID : uuid) (wd : WorkersSharedData)
    : bool :=
  uuid_eqb oldBenchID (currentBenchID wd)
  && negb (thisIsInterruptionRequested this wd).

(** Sample pools used by the examples. *)
Definition idleWorker (rank : Z) : Worker := mkWorker rank false false 0.

Definition pool2 : WorkersSharedData :=
  mkShared 7%N 0 0 [idleWorker 0; idleWorker 1].

Definition pool2Interrupted : WorkersSharedData :=
  mkShared 7%N 0 0 [mkWorker 0 true false 0; idleWorker 1].

(** ** scripts/test_blockdev_rand.sh *)

Module BlockdevScript.

Open Scope string_scope.

(** What the script does to the outside, in order. *)
Inductive Action : Type :=
| RunGrep (pattern file : string)
| Output (line : string)
| Launch (cmd : string).

Inductive Flow : Type :=
| Continue
| Exit (status : nat).

(** The shell variables read after [parse_args] and
    [prepare_arg_filenames] ran.  [READPERCENT] is kept as the [test]
    builtin reads it for [-eq] where the script quotes it (parse_args,
    check_mounted): [Some n] for an integer operand, [None] for an operand
    it rejects (status 2).  prepare_arg_rwmix does not quote it, so its
    test sees the words of the expansion instead of one operand;
    [READPERCENT_UNQUOTED_EQ_0] is the outcome of that test. *)
Record Vars : Type := mkVars {
  EXE_PATH : string;
  EXE_NAME : string;
  FILENAMES : list string;
  IODEPTH : string;
  NUMJOBS : string;
  READPERCENT : option Z;
  BLOCKSIZE : string;
  READPERCENT_UNQUOTED_EQ_0 : bool
}.

(** [[ "$x" -eq n ]]: true exactly when the operand is the integer [n]. *)
Definition test_eq (x : option Z) (n : Z) : bool :=
  match x with
  | Some v => Z.eqb v n
  | None => false
  end.

(** The external [grep]: whether a basic regular expression selects a
    line. *)
Class Grep : Type := {
  grepSelects : string -> string -> bool
}.

(** [grep pattern file]: the selected lines go to standard output; the
    status is 0 when a line was selected, 1 when none was, and 2 when the
    file cannot be read ([None]). *)
Definition grep `{Grep} (pattern : string) (file : option (list string))
    : nat * list string :=
  match file with
  | None => (2%nat, [])
  | Some lines =>
      let hits := List.filter (grepSelects pattern) lines in
      (match hits with [] => 1%nat | _ :: _ => 0%nat end, hits)
  end.

Definition PROC_MOUNTS : string := "/proc/mounts".

Definition MOUNTED_MSG : string :=
  "ERROR: Refusing write test, because block device appears to contain a mounted file system: ".

(** prepare_arg_rwmix: the value given to [RWMIXREAD], decided by the
    unquoted test [ $READPERCENT -eq 0 ]. *)
Definition prepare_arg_rwmix (v : Vars) : string :=
  if READPERCENT_UNQUOTED_EQ_0 v then "-w" else "-r".

(** The [for (( i=0; i < ${#FILENAMES[@]}; i++ ))] loop of check_mounted;
    [FILENAMES] is filled with [+=] only, so its indices are dense and the
    loop visits the elements in order. *)
Fixpoint check_mounted_loop `{Grep} (filenames : list string)
    (procMounts : option (list string)) : Flow * list Action :=
  match filenames with
  | [] => (Continue, [])
  | f :: rest =>
      let pattern := "^" ++ f ++ " " in
      let '(status, hits) := grep pattern procMounts in
      let acts := RunGrep pattern PROC_MOUNTS :: map Output hits in
      if Nat.eqb status 0
      then (Exit 1, (acts ++ [Output (MOUNTED_MSG ++ f)])%list)
      else
        let '(flow, later) := check_mounted_loop rest procMounts in
        (flow, (acts ++ later)%list)
  end.

(** check_mounted. *)
Definition check_mounted `{Grep} (v : Vars) (procMounts : option (list string))
    : Flow * list Action :=
  if test_eq (READPERCENT v) 100
  then (Continue, [])
  else check_mounted_loop (FILENAMES v) procMounts.

(** ["${FILENAMES[@]}"] inside the double-quoted assignment: the elements
    separated by single spaces. *)
Definition joinWords (ws : list string) : string := String.concat " " ws.

(** The two assignments to [cmd]. *)
Definition benchmarkCommand (exe : string) (v : Vars) : string :=
  exe ++ " " ++ joinWords (FILENAMES v) ++ " --iodepth " ++ IODEPTH v
  ++ " -t " ++ NUMJOBS v ++ " " ++ prepare_arg_rwmix v
  ++ " -b " ++ BLOCKSIZE v ++ " "
  ++ " --direct --rand --randalign --lat --latpercent --randamount 1T --timelimit 600".

(** The script from [prepare_arg_rwmix] on.  [cmd] begins with [EXE_PATH],
    so the substitution in the echoed line replaces that leading
    occurrence by [EXE_NAME]. *)
Definition run_from_rwmix `{Grep} (v : Vars) (procMounts : option (list string))
    : Flow * list Action :=
  match check_mounted v procMounts with
  | (Exit status, acts) => (Exit status, acts)
  | (Continue, acts) =>
      (Continue,
       (acts ++ [Output ("COMMAND: " ++ benchmarkCommand (EXE_NAME v) v);
                 Output EmptyString;
                 Launch (benchmarkCommand (EXE_PATH v) v)])%list)
  end.

Definition launches (acts : list Action) : bool :=
  existsb (fun a => match a with Launch _ => true | _ => false end) acts.

Definition greps (acts : list Action) : bool :=
  existsb (fun a => match a with RunGrep _ _ => true | _ => false end) acts.

(** Some line of /proc/mounts begins with the path followed by a space. *)
Definition mountedDevice (lines : list string) (f : string) : bool :=
  existsb (String.prefix (f ++ " ")) lines.

(** Some line of /proc/mounts begins with the path. *)
Definition startsSomeLine (lines : list string) (f : string) : bool :=
  existsb (String.prefix f) lines.

(** [grep] on a pattern [^text] whose [text] has no character that is
    special in a basic regular expression: the line must begin with
    [text]. *)
Definition grepAnchoredText : Grep :=
  {| grepSelects pattern line :=
       match pattern with
       | String "^"%char text => String.prefix text line
       | _ => false
       end |}.

(** [grep] takes the device paths literally: the pattern built from a
    path selects the lines that begin with the path and a space.  This is
    the behaviour of [grep] on paths without characters that are special in
    a basic regular expression. *)
Definition readsLiterally `{Grep} (filenames : list string) : Prop :=
  forall f line,
    In f filenames ->
    grepSelects ("^" ++ f ++ " ") line = String.prefix (f ++ " ") line.

Definition sampleVars (readPercent : option Z) : Vars :=
  mkVars "./../bin/elbencho" "elbencho" ["/dev/sda"] "16" "16" readPercent "4k"
         (test_eq readPercent 0).

Definition sampleMounts : list string :=
  ["proc /proc proc rw,nosuid 0 0"; "/dev/sda1 / ext4 rw,relatime 0 0"].

Definition sampleMountsWhole : list string :=
  ["proc /proc proc rw,nosuid 0 0"; "/dev/sda /data xfs rw 0 0"].

(** *** The rest of the script *)

(** The file tests of the [test] builtin: [-e] and [-f]. *)
Class FileSystem : Type := {
  test_e : string -> bool;
  test_f : string -> bool
}.

(** How the [test] builtin reads READPERCENT.  [integerOperand] is the
    quoted use, one string operand of [-eq] or [-ne]: [Some n] for an
    integer, [None] for a string it rejects with status 2.
    [unquotedEquals x n] is the unquoted use [ $x -eq n ]: the value is split
    into words and expanded first, and the builtin evaluates the argument
    list that results, whatever expression it spells. *)
Class IntegerOperands : Type := {
  integerOperand : string -> option Z;
  unquotedEquals : string -> Z -> bool
}.

(** [[ "$x" -ne n ]]: true exactly when the operand is an integer other
    than [n]; a rejected operand makes the test fail with status 2. *)
Definition test_ne (x : option Z) (n : Z) : bool :=
  match x with
  | Some v => negb (Z.eqb v n)
  | None => false
  end.

(** The double quote character that an escaped quote prints. *)
Definition DQ : string := String (ascii_of_nat 34) EmptyString.

(** usage: the lines it echoes before [exit 1]; [script0] is [$0]. *)
Definition usage (script0 : string) : list Action :=
  [ Output "About:";
    Output "  Test block device direct access performance with random access.";
    Output EmptyString;
    Output "Usage:";
    Output ("  " ++ script0 ++ " <DEVICE> <IODEPTH> <NUMJOBS> <READPERCENT> <BLOCKSIZE>");
    Output EmptyString;
    Output "Mandatory Arguments:";
    Output "  DEVICE      Device name in /dev or NVMesh volume name in /dev/nvmesh.";
    Output "              (Can be multiple devices space-separated as single arg in quotes.)";
    Output "  IODEPTH     Number of concurrent asynchronous requests per job.";
    Output "  NUMJOBS     Number of concurrent threads.";
    Output ("  READPERCENT Percentage or read access. " ++ DQ ++ "0" ++ DQ
            ++ " means pure writing and " ++ DQ ++ "100" ++ DQ);
    Output "              means pure reading.";
    Output ("  BLOCKSIZE   Block size of read/write accesses, e.g. " ++ DQ ++ "4k"
            ++ DQ ++ " or " ++ DQ ++ "1m" ++ DQ ++ ".");
    Output EmptyString;
    Output "Examples:";
    Output "  Check read latency of NVMesh volume /dev/nvmesh/myvol:";
    Output ("    $ " ++ script0 ++ " myvol 1 1 100 4k");
    Output "  Check read IOPS of device /dev/nvme0n1:";
    Output ("    $ " ++ script0 ++ " nvme0n1 16 16 100 4k");
    Output "  Check write throughput of volumes /dev/nvmesh/myvol1 and /dev/nvmesh/myvol2:";
    Output ("    $ " ++ script0 ++ " " ++ DQ ++ "myvol1 myvol2" ++ DQ ++ " 16 16 0 128k") ]%list.

(** A shell function either goes on with a value or ends the script with
    [exit status] after the given output. *)
Inductive Step (A : Type) : Type :=
| Go (a : A)
| Stop (status : nat) (out : list Action).

Arguments Go {A} a.
Arguments Stop {A} status out.

(** The five variables parse_args assigns from the positional
    parameters. *)
Record Positional : Type := mkPositional {
  DEVICE : string;
  argIODEPTH : string;
  argNUMJOBS : string;
  argREADPERCENT : string;
  argBLOCKSIZE : string
}.

(** A word that [getopts] takes for options: a dash followed by at least
    one more character, other than the end-of-options word [--]. *)
Definition isOptionWord (a : string) : bool :=
  match a with
  | String "-"%char (String _ _) => negb (String.eqb a "--")
  | _ => false
  end.

(** The parameters left after [shift $((OPTIND-1))] when [getopts] found
    no option: a leading [--] is consumed. *)
Definition afterOptions (args : list string) : list string :=
  match args with
  | a :: rest => if String.eqb a "--" then rest else args
  | [] => []
  end.

(** parse_args.  With the option string [:h] every option, [-h] included,
    runs usage, so the [while getopts] loop ends the script in its first
    round or is not entered. *)
Definition parse_args `{IntegerOperands} (script0 : string) (args : list string)
    : Step Positional :=
  if match args with a :: _ => isOptionWord a | [] => false end
  then Stop 1 (usage script0)
  else
    match afterOptions args with
    | [a1; a2; a3; a4; a5] =>
        if test_ne (integerOperand a4) 0 && test_ne (integerOperand a4) 100
        then Stop 1 (Output "ERROR: READPERCENT must be either 0 or 100."
                       :: usage script0)
        else Go (mkPositional a1 a2 a3 a4 a5)
    | _ => Stop 1 (Output "ERROR: Invalid number of arguments." :: usage script0)
    end.

(** find_executable_or_exit. *)
Definition find_executable_or_exit `{FileSystem} (exePath : string) : Step unit :=
  if negb (test_f exePath)
  then Stop 1 [Output ("ERROR: Executable not found. Run " ++ DQ ++ "make" ++ DQ
                       ++ " to create it: " ++ exePath)]
  else Go tt.

(** The characters of the default [IFS]: space, tab, newline. *)
Definition isIFS (c : ascii) : bool :=
  Ascii.eqb c " " || Ascii.eqb c (ascii_of_nat 9) || Ascii.eqb c (ascii_of_nat 10).

(** Word splitting of an unquoted expansion; [word] is the word being
    read. *)
Fixpoint splitIFS (s : string) (word : string) : list string :=
  match s with
  | EmptyString =>
      match word with EmptyString => [] | _ => [word] end
  | String c rest =>
      if isIFS c
      then match word with
           | EmptyString => splitIFS rest EmptyString
           | _ => word :: splitIFS rest EmptyString
           end
      else splitIFS rest (word ++ String c EmptyString)
  end.

(** The characters that start pathname expansion in an unquoted word. *)
Definition isPatternChar (c : ascii) : bool :=
  Ascii.eqb c "*" || Ascii.eqb c "?" || Ascii.eqb c "[".

(** A value whose unquoted expansion is its words as they stand. *)
Definition patternFree (s : string) : bool :=
  forallb (fun c => negb (isPatternChar c)) (list_ascii_of_string s).

(** [/dev/nvmesh/$dev] and [/dev/$dev]. *)
Definition nvmeshPath (dev : string) : string := "/dev/nvmesh/" ++ dev.

Definition devPath (dev : string) : string := "/dev/" ++ dev.

(** The body of the [for dev in $DEVICE] loop of prepare_arg_filenames, for
    the words of [$DEVICE]; [filenames] is the array filled so far. *)
Fixpoint prepare_arg_filenames_loop `{FileSystem} (devs : list string)
    (filenames : list string) : Step (list string) :=
  match devs with
  | [] => Go filenames
  | dev :: rest =>
      if test_e (nvmeshPath dev)
      then prepare_arg_filenames_loop rest (filenames ++ [nvmeshPath dev])%list
      else if test_e (devPath dev)
      then prepare_arg_filenames_loop rest (filenames ++ [devPath dev])%list
      else Stop 1 [Output ("ERROR: Given device not found: " ++ dev)]
  end.

(** prepare_arg_filenames, for a [$DEVICE] without pattern characters
    (pathname expansion is not modelled). *)
Definition prepare_arg_filenames `{FileSystem} (device : string)
    : Step (list string) :=
  prepare_arg_filenames_loop (splitIFS device EmptyString) [].

(** The path a device word resolves to. *)
Definition resolvedPath `{FileSystem} (dev : string) : option string :=
  if test_e (nvmeshPath dev) then Some (nvmeshPath dev)
  else if test_e (devPath dev) then Some (devPath dev)
  else None.

(** The script body: the five calls at the bottom of the file and the
    launch.  [scriptPath] is the output of [dirname $0]. *)
Definition script `{Grep} `{FileSystem} `{IntegerOperands}
    (script0 scriptPath : string) (args : list string)
    (procMounts : option (list string)) : Flow * list Action :=
  let exeName := "elbencho" in
  let exePath := scriptPath ++ "/../bin/" ++ exeName in
  match parse_args script0 args with
  | Stop status out => (Exit status, out)
  | Go p =>
      match find_executable_or_exit exePath with
      | Stop status out => (Exit status, out)
      | Go _ =>
          match prepare_arg_filenames (DEVICE p) with
          | Stop status out => (Exit status, out)
          | Go filenames =>
              run_from_rwmix
                (mkVars exePath exeName filenames (argIODEPTH p) (argNUMJOBS p)
                        (integerOperand (argREADPERCENT p)) (argBLOCKSIZE p)
                        (unquotedEquals (argREADPERCENT p) 0))
                procMounts
          end
      end
  end.

(** A value without [IFS] characters. *)
Definition ifsFree (s : string) : bool :=
  forallb (fun c => negb (isIFS c)) (list_ascii_of_string s).

(** A non-empty value that an unquoted expansion leaves as the one word it
    is: no [IFS] character and no pattern character. *)
Definition plainWord (s : string) : bool :=
  negb (String.eqb s EmptyString) && ifsFree s && patternFree s.

(** The words [$cmd] is split into when the script runs it. *)
Definition argv (cmd : string) : list string := splitIFS cmd EmptyString.

(** The patterns of the [grep] runs among the actions, in order. *)
Fixpoint grepPatterns (acts : list Action) : list string :=
  match acts with
  | [] => []
  | RunGrep pattern _ :: rest => pattern :: grepPatterns rest
  | _ :: rest => grepPatterns rest
  end.

(** [test] on a READPERCENT written as a plain decimal numeral.  A value
    of several words, whose unquoted test is a longer expression, is outside
    this sample. *)
Definition digitValue (c : ascii) : option Z :=
  let n := nat_of_ascii c in
  if Nat.leb 48 n && Nat.leb n 57 then Some (Z.of_nat (n - 48)) else None.

Fixpoint decimalValue (s : string) (acc : Z) : option Z :=
  match s with
  | EmptyString => Some acc
  | String c rest =>
      match digitValue c with
      | Some d => decimalValue rest (10 * acc + d)
      | None => None
      end
  end.

Definition plainDecimals : IntegerOperands :=
  {| integerOperand s :=
       match s with
       | EmptyString => None
       | _ => decimalValue s 0
       end;
     unquotedEquals s n :=
       match splitIFS s EmptyString with
       | [w] => test_eq (decimalValue w 0) n
       | _ => false
       end |}.

(** A machine with the executable in place and the devices sda and
    nvme0n1, the volume myvol being an NVMesh volume. *)
Definition sampleFiles : FileSystem :=
  {| test_e path :=
       String.eqb path "/dev/sda" || String.eqb path "/dev/nvme0n1"
       || String.eqb path "/dev/nvmesh/myvol" || String.eqb path "/dev/myvol";
     test_f path := String.eqb path "./../bin/elbencho" |}.

End BlockdevScript.

(** * Properties *)

(** ** Unfolding equations *)

Lemma checkInterruptionRequest_eq (this : nat) (wd : WorkersSharedData) :
  checkInterruptionRequest this wd =
  if thisIsInterruptionRequested this wd
  then (Throw (WorkerInterruptedException INTERRUPT_MSG), wd)
  else (Ok tt, wd).
Proof.
  unfold checkInterruptionRequest, bind, get, throw, ret.
  now destruct (thisIsInterruptionRequested this wd).
Qed.

Lemma thisIsInterruptionRequested_lookup (this : nat) (wd : WorkersSharedData)
    (w : Worker) :
  workerVec wd !! this = Some w ->
  thisIsInterruptionRequested this wd = isInterruptionRequested w.
Proof.
  intros Hw. unfold thisIsInterruptionRequested, thisWorker. now rewrite Hw.
Qed.

Lemma thisStoneWallTriggered_lookup (this : nat) (wd : WorkersSharedData)
    (w : Worker) :
  workerVec wd !! this = Some w ->
  thisStoneWallTriggered this wd = stoneWallTriggered w.
Proof.
  intros Hw. unfold thisStoneWallTriggered, thisWorker. now rewrite Hw.
Qed.

Lemma incNumWorkersDoneWithError_eq (this : nat) (wd : WorkersSharedData) :
  incNumWorkersDoneWithError this wd =
  (Ok tt,
   mkShared (currentBenchID wd) (numWorkersDone wd)
            (wrap_size_t (numWorkersDoneWithError wd + 1)) (workerVec wd)).
Proof. reflexivity. Qed.

Lemma incNumWorkersDone_eq (this : nat) (wd : WorkersSharedData) :
  incNumWorkersDone this wd =
  (Ok tt,
   mkShared (currentBenchID wd) (wrap_size_t (numWorkersDone wd + 1))
            (numWorkersDoneWithError wd)
            (if (wrap_size_t (numWorkersDone wd + 1) =? 1)
                && negb (thisStoneWallTriggered this wd)
             then createStoneWallStats <$> workerVec wd
             else workerVec wd)).
Proof.
  unfold incNumWorkersDone, bind, get, ret,
    WorkersSharedData_incNumWorkersDoneUnlocked, createStoneWallStatsForAll,
    modify.
  cbn [numWorkersDone].
  change (thisStoneWallTriggered this
            (mkShared (currentBenchID wd) (wrap_size_t (numWorkersDone wd + 1))
                      (numWorkersDoneWithError wd) (workerVec wd)))
    with (thisStoneWallTriggered this wd).
  now destruct ((wrap_size_t (numWorkersDone wd + 1) =? 1)
                && negb (thisStoneWallTriggered this wd)).
Qed.

Lemma reports_ok (cs : list Completion) (wd : WorkersSharedData) :
  fst (reports cs wd) = Ok tt.
Proof.
  revert wd. induction cs as [|c cs IH]; intros wd; [reflexivity|].
  cbn [reports]. unfold bind.
  destruct c as [r|r]; cbn [report].
  - rewrite incNumWorkersDone_eq. apply IH.
  - rewrite incNumWorkersDoneWithError_eq. apply IH.
Qed.

Lemma afterReports_nil (wd : WorkersSharedData) : afterReports [] wd = wd.
Proof. reflexivity. Qed.

Lemma afterReports_cons (c : Completion) (cs : list Completion)
    (wd : WorkersSharedData) :
  afterReports (c :: cs) wd = afterReports cs (snd (report c wd)).
Proof.
  unfold afterReports. cbn [reports]. unfold bind.
  destruct c as [r|r]; cbn [report].
  - now rewrite incNumWorkersDone_eq.
  - now rewrite incNumWorkersDoneWithError_eq.
Qed.

Lemma afterReports_app (cs1 cs2 : list Completion) (wd : WorkersSharedData) :
  afterReports (cs1 ++ cs2) wd = afterReports cs2 (afterReports cs1 wd).
Proof.
  revert wd. induction cs1 as [|c cs1 IH]; intros wd; [reflexivity|].
  rewrite <- app_comm_cons, !afterReports_cons. apply IH.
Qed.

(** ** Cooperative cancellation *)

(** C5: checkInterruptionRequest raises the Interrupted condition exactly
    when the calling worker's interruption flag is set; with the flag clear
    it returns normally; in both cases the state is left as it was. *)
Theorem checkInterruptionRequest_raises_iff_flag
    (this : nat) (wd : WorkersSharedData) (w : Worker) :
  workerVec wd !! this = Some w ->
  (fst (checkInterruptionRequest this wd)
     = Throw (WorkerInterruptedException INTERRUPT_MSG)
   <-> isInterruptionRequested w = true)
  /\ (fst (checkInterruptionRequest this wd) = Ok tt
      <-> isInterruptionRequested w = false)
  /\ snd (checkInterruptionRequest this wd) = wd.
Proof.
  intros Hw. rewrite checkInterruptionRequest_eq.
  rewrite (thisIsInterruptionRequested_lookup this wd w Hw).
  destruct (isInterruptionRequested w); cbn [fst snd];
    repeat split; intros; congruence.
Qed.

Lemma checkInterruptionRequest_raises_iff_flag_witness :
  (fst (checkInterruptionRequest 0 pool2Interrupted)
     = Throw (WorkerInterruptedException INTERRUPT_MSG)
   <-> true = true)
  /\ (fst (checkInterruptionRequest 0 pool2Interrupted) = Ok tt
      <-> true = false)
  /\ snd (checkInterruptionRequest 0 pool2Interrupted) = pool2Interrupted.
Proof.
  apply (checkInterruptionRequest_raises_iff_flag 0 pool2Interrupted
           (mkWorker 0 true false 0)).
  reflexivity.
Defined.

(** ** Waiting for the next phase *)

Lemma waitForNextPhase_keepsWaiting (this : nat) (oldBenchID : uuid)
    (wd woken : WorkersSharedData) (rest : list WorkersSharedData) :
  keepsWaiting this oldBenchID wd = true ->
  waitForNextPhase this oldBenchID (woken :: rest) wd
  = waitForNextPhase this oldBenchID rest woken.
Proof.
  unfold keepsWaiting. intros [Hid Hflag]%andb_true_iff.
  apply negb_true_iff in Hflag.
  unfold waitForNextPhase.
  rewrite (checkInterruptionRequest_eq this wd), Hflag.
  cbn [waitLoop]. rewrite Hid. reflexivity.
Qed.

Lemma waitForNextPhase_parked (this : nat) (oldBenchID : uuid)
    (wd : WorkersSharedData) :
  keepsWaiting this oldBenchID wd = true ->
  waitForNextPhase this oldBenchID [] wd = StillBlocked.
Proof.
  unfold keepsWaiting. intros [Hid Hflag]%andb_true_iff.
  apply negb_true_iff in Hflag.
  unfold waitForNextPhase.
  rewrite checkInterruptionRequest_eq, Hflag. cbn [waitLoop].
  now rewrite Hid.
Qed.

Lemma waitForNextPhase_flag (this : nat) (oldBenchID : uuid)
    (wakeups : list WorkersSharedData) (wd : WorkersSharedData) :
  thisIsInterruptionRequested this wd = true ->
  waitForNextPhase this oldBenchID wakeups wd
  = Raised (WorkerInterruptedException INTERRUPT_MSG) wd.
Proof.
  intros Hflag. unfold waitForNextPhase.
  now rewrite checkInterruptionRequest_eq, Hflag.
Qed.

Lemma waitForNextPhase_changed (this : nat) (oldBenchID : uuid)
    (wakeups : list WorkersSharedData) (wd : WorkersSharedData) :
  thisIsInterruptionRequested this wd = false ->
  uuid_eqb oldBenchID (currentBenchID wd) = false ->
  waitForNextPhase this oldBenchID wakeups wd = Returned wd.
Proof.
  intros Hflag Hid. unfold waitForNextPhase.
  rewrite checkInterruptionRequest_eq, Hflag.
  destruct wakeups; cbn [waitLoop]; now rewrite Hid.
Qed.

(** The observations of a call: the world at entry, then the world at each
    wakeup.  A prefix of observations in which the worker keeps waiting is
    skipped. *)
Lemma waitForNextPhase_skip (this : nat) (oldBenchID : uuid)
    (pre : list WorkersSharedData) :
  forall (wd obs : WorkersSharedData) (wakeups post : list WorkersSharedData),
    wd :: wakeups = pre ++ obs :: post ->
    forallb (keepsWaiting this oldBenchID) pre = true ->
    waitForNextPhase this oldBenchID wakeups wd
    = waitForNextPhase this oldBenchID post obs.
Proof.
  induction pre as [|p pre IH]; intros wd obs wakeups post Heq Hpre.
  - cbn in Heq. now inversion Heq.
  - cbn in Heq. inversion Heq; subst p wakeups. clear Heq.
    cbn [forallb] in Hpre. apply andb_true_iff in Hpre as [Hwd Hpre].
    destruct pre as [|p' pre'].
    + cbn [app]. now apply waitForNextPhase_keepsWaiting.
    + cbn [app]. rewrite waitForNextPhase_keepsWaiting by exact Hwd.
      apply IH; [reflexivity | exact Hpre].
Qed.

Lemma uuid_eqb_false (a b : uuid) : uuid_eqb a b = false <-> b <> a.
Proof.
  unfold uuid_eqb. rewrite N.eqb_neq. split; intros H E; apply H; now symmetry.
Qed.

Lemma waitForNextPhase_returned_inv (this : nat) (oldBenchID : uuid)
    (wakeups : list WorkersSharedData) :
  forall (wd wd' : WorkersSharedData),
    waitForNextPhase this oldBenchID wakeups wd = Returned wd' ->
    exists pre post,
      wd :: wakeups = pre ++ wd' :: post
      /\ forallb (keepsWaiting this oldBenchID) pre = true
      /\ thisIsInterruptionRequested this wd' = false
      /\ currentBenchID wd' <> oldBenchID.
Proof.
  induction wakeups as [|woken rest IH]; intros wd wd' Hret.
  - destruct (thisIsInterruptionRequested this wd) eqn:Hflag.
    + rewrite waitForNextPhase_flag in Hret by exact Hflag. discriminate.
    + destruct (uuid_eqb oldBenchID (currentBenchID wd)) eqn:Hid.
      * rewrite waitForNextPhase_parked in Hret; [discriminate|].
        unfold keepsWaiting. now rewrite Hid, Hflag.
      * rewrite waitForNextPhase_changed in Hret by assumption.
        inversion Hret; subst wd'.
        exists [], []. repeat split; try assumption.
        now apply uuid_eqb_false.
  - destruct (thisIsInterruptionRequested this wd) eqn:Hflag.
    + rewrite waitForNextPhase_flag in Hret by exact Hflag. discriminate.
    + destruct (uuid_eqb oldBenchID (currentBenchID wd)) eqn:Hid.
      * assert (Hkeep : keepsWaiting this oldBenchID wd = true)
          by (unfold keepsWaiting; now rewrite Hid, Hflag).
        rewrite waitForNextPhase_keepsWaiting in Hret by exact Hkeep.
        destruct (IH woken wd' Hret) as (pre & post & Heq & Hpre & Hf & Hne).
        exists (wd :: pre), post. cbn [app forallb].
        rewrite Heq, Hkeep, Hpre. now repeat split.
      * rewrite waitForNextPhase_changed in Hret by assumption.
        inversion Hret; subst wd'.
        exists [], (woken :: rest). repeat split; try assumption.
        now apply uuid_eqb_false.
Qed.

Lemma waitForNextPhase_all_waiting (this : nat) (oldBenchID : uuid)
    (wakeups : list WorkersSharedData) :
  forall wd : WorkersSharedData,
    forallb (keepsWaiting this oldBenchID) (wd :: wakeups) = true ->
    waitForNextPhase this oldBenchID wakeups wd = StillBlocked.
Proof.
  induction wakeups as [|woken rest IH]; intros wd Hall;
    cbn [forallb] in Hall; apply andb_true_iff in Hall as [Hwd Hall].
  - now apply waitForNextPhase_parked.
  - rewrite waitForNextPhase_keepsWaiting by exact Hwd. now apply IH.
Qed.

(** C2: waitForNextPhase returns normally only with a shared phase
    identifier that differs from the old one; as long as every observation
    (the world at entry, then at each wakeup) still shows the old identifier
    and a clear flag, the worker stays blocked, however many wakeups occur;
    and the first observation with the interruption flag set, at entry or
    after a wakeup, raises the Interrupted condition. *)
Theorem waitForNextPhase_protocol
    (this : nat) (oldBenchID : uuid)
    (wakeups : list WorkersSharedData) (wd : WorkersSharedData) :
  (forall wd',
      waitForNextPhase this oldBenchID wakeups wd = Returned wd' ->
      currentBenchID wd' <> oldBenchID
      /\ thisIsInterruptionRequested this wd' = false
      /\ exists pre post,
           wd :: wakeups = pre ++ wd' :: post
           /\ forallb (keepsWaiting this oldBenchID) pre = true)
  /\ (forallb (keepsWaiting this oldBenchID) (wd :: wakeups) = true ->
      waitForNextPhase this oldBenchID wakeups wd = StillBlocked)
  /\ (forall pre obs post,
        wd :: wakeups = pre ++ obs :: post ->
        forallb (keepsWaiting this oldBenchID) pre = true ->
        thisIsInterruptionRequested this obs = true ->
        waitForNextPhase this oldBenchID wakeups wd
        = Raised (WorkerInterruptedException INTERRUPT_MSG) obs)
  /\ (forall pre obs post,
        wd :: wakeups = pre ++ obs :: post ->
        forallb (keepsWaiting this oldBenchID) pre = true ->
        thisIsInterruptionRequested this obs = false ->
        currentBenchID obs <> oldBenchID ->
        waitForNextPhase this oldBenchID wakeups wd = Returned obs).
Proof.
  split; [|split; [|split]].
  - intros wd' Hret.
    destruct (waitForNextPhase_returned_inv _ _ _ _ _ Hret)
      as (pre & post & Heq & Hpre & Hflag & Hne).
    repeat split; try assumption. now exists pre, post.
  - apply waitForNextPhase_all_waiting.
  - intros pre obs post Heq Hpre Hflag.
    rewrite (waitForNextPhase_skip this oldBenchID pre wd obs wakeups post Heq Hpre).
    now apply waitForNextPhase_flag.
  - intros pre obs post Heq Hpre Hflag Hne.
    rewrite (waitForNextPhase_skip this oldBenchID pre wd obs wakeups post Heq Hpre).
    apply waitForNextPhase_changed; [exact Hflag | now apply uuid_eqb_false].
Qed.

(** Two spurious wakeups, then the request to stop. *)
Lemma waitForNextPhase_protocol_witness :
  waitForNextPhase 0 7%N [pool2; pool2; pool2Interrupted; pool2] pool2
  = Raised (WorkerInterruptedException INTERRUPT_MSG) pool2Interrupted.
Proof.
  apply (proj1 (proj2 (proj2
           (waitForNextPhase_protocol 0 7%N
              [pool2; pool2; pool2Interrupted; pool2] pool2)))
           [pool2; pool2; pool2] pool2Interrupted [pool2]);
    reflexivity.
Defined.

(** C9: when the shared phase identifier already differs from the old one
    at entry, the interruption flag still decides first: with the flag set
    the call raises the Interrupted condition instead of returning. *)
Theorem waitForNextPhase_interruption_first
    (this : nat) (oldBenchID : uuid)
    (wakeups : list WorkersSharedData) (wd : WorkersSharedData) (w : Worker) :
  workerVec wd !! this = Some w ->
  currentBenchID wd <> oldBenchID ->
  waitForNextPhase this oldBenchID wakeups wd
  = if isInterruptionRequested w
    then Raised (WorkerInterruptedException INTERRUPT_MSG) wd
    else Returned wd.
Proof.
  intros Hw Hne.
  pose proof (thisIsInterruptionRequested_lookup this wd w Hw) as Hflag.
  destruct (isInterruptionRequested w).
  - now apply waitForNextPhase_flag.
  - apply waitForNextPhase_changed; [exact Hflag | now apply uuid_eqb_false].
Qed.

Lemma waitForNextPhase_interruption_first_witness :
  waitForNextPhase 0 3%N [pool2] pool2Interrupted
  = Raised (WorkerInterruptedException INTERRUPT_MSG) pool2Interrupted.
Proof.
  apply (waitForNextPhase_interruption_first 0 3%N [pool2] pool2Interrupted
           (mkWorker 0 true false 0)).
  - reflexivity.
  - discriminate.
Defined.

(** ** Completion reports and the stonewall capture *)

Lemma forallb_lookup {A : Type} (p : A -> bool) (l : list A) (i : nat) (x : A) :
  forallb p l = true -> l !! i = Some x -> p x = true.
Proof.
  revert i. induction l as [|y l IH]; intros i Hall Hx; [discriminate|].
  cbn [forallb] in Hall. apply andb_true_iff in Hall as [Hy Hl].
  destruct i as [|i]; cbn in Hx.
  - now inversion Hx; subst.
  - now apply (IH i).
Qed.

Lemma fresh_then_captured (vec : list Worker) :
  forallb freshWorker vec = true ->
  forallb capturedWorker (createStoneWallStats <$> vec) = true.
Proof.
  induction vec as [|w vec IH]; intros Hall; [reflexivity|].
  cbn [forallb] in Hall. apply andb_true_iff in Hall as [Hw Hvec].
  cbn [fmap list_fmap forallb]. rewrite (IH Hvec), andb_true_r.
  unfold freshWorker in Hw. apply andb_true_iff in Hw as [_ Hn].
  apply Nat.eqb_eq in Hn.
  unfold capturedWorker, createStoneWallStats; cbn. now rewrite Hn.
Qed.

Lemma fresh_latch_clear (this : nat) (wd : WorkersSharedData) :
  forallb freshWorker (workerVec wd) = true ->
  thisStoneWallTriggered this wd = false.
Proof.
  intros Hall. unfold thisStoneWallTriggered, thisWorker.
  destruct (workerVec wd !! this) as [w|] eqn:Hw; [|reflexivity].
  pose proof (forallb_lookup _ _ _ _ Hall Hw) as Hf.
  unfold freshWorker in Hf. apply andb_true_iff in Hf as [Hl _].
  now apply negb_true_iff in Hl.
Qed.

Lemma captured_latch_set (this : nat) (wd : WorkersSharedData) :
  forallb capturedWorker (workerVec wd) = true ->
  (this < length (workerVec wd))%nat ->
  thisStoneWallTriggered this wd = true.
Proof.
  intros Hall Hlt. unfold thisStoneWallTriggered, thisWorker.
  destruct (lookup_lt_is_Some_2 (workerVec wd) this Hlt) as [w Hw].
  rewrite Hw. pose proof (forallb_lookup _ _ _ _ Hall Hw) as Hc.
  unfold capturedWorker in Hc. now apply andb_true_iff in Hc as [Hl _].
Qed.

Lemma report_DoneWithError_frame (r : nat) (wd : WorkersSharedData) :
  workerVec (snd (report (DoneWithError r) wd)) = workerVec wd
  /\ numWorkersDone (snd (report (DoneWithError r) wd)) = numWorkersDone wd
  /\ currentBenchID (snd (report (DoneWithError r) wd)) = currentBenchID wd.
Proof. cbn [report]. now rewrite incNumWorkersDoneWithError_eq. Qed.

Lemma captured_step (c : Completion) (wd : WorkersSharedData) :
  forallb capturedWorker (workerVec wd) = true ->
  (reporter c < length (workerVec wd))%nat ->
  workerVec (snd (report c wd)) = workerVec wd.
Proof.
  intros Hall Hlt. destruct c as [r|r]; cbn [report reporter] in *.
  - rewrite incNumWorkersDone_eq. cbn [snd workerVec].
    rewrite (captured_latch_set r wd Hall Hlt).
    now rewrite andb_false_r.
  - now rewrite incNumWorkersDoneWithError_eq.
Qed.

Lemma reportersInPool_same_length (wd wd' : WorkersSharedData)
    (cs : list Completion) :
  length (workerVec wd') = length (workerVec wd) ->
  reportersInPool wd' cs = reportersInPool wd cs.
Proof. intros Hlen. unfold reportersInPool. now rewrite Hlen. Qed.

Lemma captured_run (cs : list Completion) :
  forall wd : WorkersSharedData,
    forallb capturedWorker (workerVec wd) = true ->
    reportersInPool wd cs = true ->
    workerVec (afterReports cs wd) = workerVec wd.
Proof.
  induction cs as [|c cs IH]; intros wd Hall Hin; [reflexivity|].
  unfold reportersInPool in Hin. cbn [forallb] in Hin.
  apply andb_true_iff in Hin as [Hc Hcs]. apply Nat.ltb_lt in Hc.
  pose proof (captured_step c wd Hall Hc) as Hstep.
  rewrite afterReports_cons, IH.
  - exact Hstep.
  - now rewrite Hstep.
  - rewrite (reportersInPool_same_length wd); [exact Hcs | now rewrite Hstep].
Qed.

Lemma wrap_size_t_one : wrap_size_t (0 + 1) = 1.
Proof. reflexivity. Qed.

(** From a fresh phase, the worker table is untouched until the first
    [Done] report, which runs [createStoneWallStats] once on every worker;
    no later report changes the table again. *)
Lemma fresh_run (cs : list Completion) :
  forall wd : WorkersSharedData,
    numWorkersDone wd = 0 ->
    forallb freshWorker (workerVec wd) = true ->
    reportersInPool wd cs = true ->
    workerVec (afterReports cs wd)
    = if existsb isDone cs
      then createStoneWallStats <$> workerVec wd
      else workerVec wd.
Proof.
  induction cs as [|c cs IH]; intros wd Hzero Hfresh Hin; [reflexivity|].
  unfold reportersInPool in Hin. cbn [forallb] in Hin.
  apply andb_true_iff in Hin as [Hc Hcs].
  rewrite afterReports_cons. destruct c as [r|r]; cbn [existsb isDone orb].
  - cbn [report]. rewrite incNumWorkersDone_eq. cbn [snd].
    rewrite Hzero, wrap_size_t_one, (fresh_latch_clear r wd Hfresh).
    cbn [Z.eqb Pos.eqb andb negb].
    rewrite captured_run; cbn [workerVec].
    + reflexivity.
    + now apply fresh_then_captured.
    + unfold reportersInPool. cbn [workerVec]. now rewrite length_fmap.
  - destruct (report_DoneWithError_frame r wd) as (Hvec & Hdone & _).
    rewrite IH.
    + now rewrite Hvec.
    + now rewrite Hdone.
    + now rewrite Hvec.
    + rewrite (reportersInPool_same_length wd); [exact Hcs | now rewrite Hvec].
Qed.

Lemma freshPhase_inv (wd : WorkersSharedData) :
  freshPhase wd = true ->
  numWorkersDone wd = 0 /\ numWorkersDoneWithError wd = 0
  /\ forallb freshWorker (workerVec wd) = true.
Proof.
  unfold freshPhase. intros [[H1 H2]%andb_true_iff H3]%andb_true_iff.
  apply Z.eqb_eq in H1, H2. now repeat split.
Qed.

Lemma reportersInPool_app (wd : WorkersSharedData) (cs1 cs2 : list Completion) :
  reportersInPool wd (cs1 ++ cs2)
  = reportersInPool wd cs1 && reportersInPool wd cs2.
Proof. unfold reportersInPool. apply forallb_app. Qed.

(** C1: in a phase (both counters at zero and every latch clear when it
    starts), whatever the number and order of completion reports, each
    worker's snapshot is taken at most once: no snapshot exists before the
    first incNumWorkersDone, every worker has exactly one from then on, and a
    report changes the stonewall state only if it is the incNumWorkersDone
    call that brings numWorkersDone to exactly 1 while the caller's latch is
    clear. *)
Theorem stonewall_capture_once_per_phase
    (wd : WorkersSharedData) (cs : list Completion) :
  freshPhase wd = true ->
  reportersInPool wd cs = true ->
  workerVec (afterReports cs wd)
  = (if existsb isDone cs
     then createStoneWallStats <$> workerVec wd
     else workerVec wd)
  /\ forallb (if existsb isDone cs then capturedWorker else freshWorker)
             (workerVec (afterReports cs wd)) = true
  /\ (forall pre c post,
        cs = pre ++ c :: post ->
        workerVec (afterReports (pre ++ [c]) wd)
        <> workerVec (afterReports pre wd) ->
        isDone c = true
        /\ existsb isDone pre = false
        /\ numWorkersDone (afterReports (pre ++ [c]) wd) = 1
        /\ thisStoneWallTriggered (reporter c) (afterReports pre wd) = false).
Proof.
  intros Hfresh Hin.
  destruct (freshPhase_inv wd Hfresh) as (Hzero & _ & Hlatches).
  pose proof (fresh_run cs wd Hzero Hlatches Hin) as Hrun.
  split; [exact Hrun|]. split.
  - rewrite Hrun. destruct (existsb isDone cs).
    + now apply fresh_then_captured.
    + exact Hlatches.
  - intros pre c post Hsplit Hchanged.
    rewrite Hsplit, reportersInPool_app in Hin.
    apply andb_true_iff in Hin as [Hpre Hrest].
    assert (Hprec : reportersInPool wd (pre ++ [c]) = true).
    { rewrite reportersInPool_app, Hpre.
      unfold reportersInPool in *. cbn [forallb] in *.
      apply andb_true_iff in Hrest as [Hc _]. now rewrite Hc. }
    assert (Hnone : existsb isDone pre = false).
    { destruct (existsb isDone pre) eqn:Hex; [|reflexivity].
      exfalso. apply Hchanged.
      rewrite (fresh_run (pre ++ [c]) wd Hzero Hlatches Hprec).
      rewrite (fresh_run pre wd Hzero Hlatches Hpre).
      now rewrite existsb_app, Hex. }
    rewrite afterReports_app in Hchanged |- *.
    set (wd1 := afterReports pre wd) in *.
    rewrite (afterReports_cons c [] wd1), afterReports_nil in Hchanged |- *.
    destruct c as [r|r]; cbn [report isDone reporter] in *.
    + rewrite incNumWorkersDone_eq in Hchanged |- *.
      cbn [snd workerVec numWorkersDone] in Hchanged |- *.
      destruct ((wrap_size_t (numWorkersDone wd1 + 1) =? 1)
                && negb (thisStoneWallTriggered r wd1)) eqn:Hgate;
        [|now contradiction Hchanged].
      apply andb_true_iff in Hgate as [Hone Hlatch].
      apply Z.eqb_eq in Hone. apply negb_true_iff in Hlatch.
      now repeat split.
    + rewrite incNumWorkersDoneWithError_eq in Hchanged.
      now contradiction Hchanged.
Qed.

(** Three reports in a pool of two: the error report passes without a
    capture, the first [Done] captures, the second does not capture again. *)
Lemma stonewall_capture_once_per_phase_witness :
  forallb capturedWorker
    (workerVec
       (afterReports [DoneWithError 1%nat; Done 0%nat; Done 1%nat] pool2))
  = true.
Proof.
  apply (proj1 (proj2
           (stonewall_capture_once_per_phase pool2
              [DoneWithError 1%nat; Done 0%nat; Done 1%nat]
              eq_refl eq_refl))).
Defined.

(** A set latch keeps the worker table as it is, whatever the counter. *)
Lemma incNumWorkersDone_latch_blocks_capture
    (this : nat) (wd : WorkersSharedData) :
  thisStoneWallTriggered this wd = true ->
  workerVec (snd (incNumWorkersDone this wd)) = workerVec wd.
Proof.
  intros Hlatch. rewrite incNumWorkersDone_eq. cbn [snd workerVec].
  now rewrite Hlatch, andb_false_r.
Qed.

(** C4 (as the code has it): when a call to incNumWorkersDone brings the
    completion counter to exactly 1 and the caller's latch is clear,
    createStoneWallStats runs once on every worker of the shared worker
    vector, the caller included, whether or not the worker is still
    running. *)
Theorem incNumWorkersDone_captures_whole_pool
    (this : nat) (wd : WorkersSharedData) :
  wrap_size_t (numWorkersDone wd + 1) = 1 ->
  thisStoneWallTriggered this wd = false ->
  numWorkersDone (snd (incNumWorkersDone this wd)) = 1
  /\ workerVec (snd (incNumWorkersDone this wd))
     = createStoneWallStats <$> workerVec wd
  /\ (forall r w,
        workerVec wd !! r = Some w ->
        workerVec (snd (incNumWorkersDone this wd)) !! r
        = Some (createStoneWallStats w)).
Proof.
  intros Hone Hlatch. rewrite incNumWorkersDone_eq.
  cbn [snd numWorkersDone workerVec]. rewrite Hone, Hlatch.
  cbn [Z.eqb Pos.eqb andb negb]. repeat split.
  intros r w Hw. now rewrite list_lookup_fmap, Hw.
Qed.

Lemma incNumWorkersDone_captures_whole_pool_witness :
  workerVec (snd (incNumWorkersDone 0 pool2)) !! 0%nat
  = Some (createStoneWallStats (idleWorker 0)).
Proof.
  apply (proj2 (proj2
           (incNumWorkersDone_captures_whole_pool 0 pool2 eq_refl eq_refl))).
  reflexivity.
Defined.

(** C4 as stated fails: worker 1 leaves the phase with an error, then
    worker 0 reports first; that call brings the counter to exactly 1 and
    takes a snapshot for worker 1 as well, although worker 1 had finished
    before the call.  The caller itself counts as covered by the claim, so
    a worker is taken as finished when it reported before the call. *)
Lemma stonewall_capture_error_finished_cex :
  numWorkersDone (afterReports [DoneWithError 1%nat; Done 0%nat] pool2) = 1
  /\ workerVec (afterReports [DoneWithError 1%nat] pool2) = workerVec pool2
  /\ ~ (forall r w,
          workerVec (afterReports [DoneWithError 1%nat; Done 0%nat] pool2) !! r
          = Some w ->
          (capturedWorker w = true
           <-> hasFinished r [DoneWithError 1%nat] = false)).
Proof.
  split; [reflexivity|]. split; [reflexivity|].
  intros Hclaim.
  destruct (Hclaim 1%nat (createStoneWallStats (idleWorker 1)) eq_refl)
    as [Hcap _].
  specialize (Hcap eq_refl). discriminate Hcap.
Qed.

(** C7: incNumWorkersDoneWithError adds one to the error-completion counter
    and leaves the completion counter, the phase identifier and every
    worker's stonewall state as they were, in every state, the first
    completion of a phase included. *)
Theorem incNumWorkersDoneWithError_only_error_counter
    (this : nat) (wd : WorkersSharedData) :
  fst (incNumWorkersDoneWithError this wd) = Ok tt
  /\ numWorkersDoneWithError (snd (incNumWorkersDoneWithError this wd))
     = wrap_size_t (numWorkersDoneWithError wd + 1)
  /\ numWorkersDone (snd (incNumWorkersDoneWithError this wd))
     = numWorkersDone wd
  /\ workerVec (snd (incNumWorkersDoneWithError this wd)) = workerVec wd
  /\ currentBenchID (snd (incNumWorkersDoneWithError this wd))
     = currentBenchID wd.
Proof. rewrite incNumWorkersDoneWithError_eq. now repeat split. Qed.

(** ** Completion counters *)

Lemma wrap_size_t_range (z : Z) : 0 <= wrap_size_t z < SIZE_MODULUS.
Proof. unfold wrap_size_t. apply Z.mod_pos_bound. reflexivity. Qed.

Lemma wrap_size_t_succ (n k : Z) :
  wrap_size_t (wrap_size_t (n + 1) + k) = wrap_size_t (n + (k + 1)).
Proof.
  unfold wrap_size_t. rewrite Zplus_mod_idemp_l. f_equal. lia.
Qed.

Lemma length_afterReports (cs : list Completion) :
  forall wd : WorkersSharedData,
    length (workerVec (afterReports cs wd)) = length (workerVec wd).
Proof.
  induction cs as [|c cs IH]; intros wd; [reflexivity|].
  rewrite afterReports_cons, IH. destruct c as [r|r]; cbn [report].
  - rewrite incNumWorkersDone_eq. cbn [snd workerVec].
    destruct (_ && _); [apply length_fmap | reflexivity].
  - now rewrite incNumWorkersDoneWithError_eq.
Qed.

Lemma numWorkersDone_afterReports (cs : list Completion) :
  forall wd : WorkersSharedData,
    0 <= numWorkersDone wd < SIZE_MODULUS ->
    numWorkersDone (afterReports cs wd)
    = wrap_size_t (numWorkersDone wd + Z.of_nat (numDone cs)).
Proof.
  induction cs as [|c cs IH]; intros wd Hrange.
  - cbn. rewrite Z.add_0_r. unfold wrap_size_t.
    symmetry. now apply Z.mod_small.
  - rewrite afterReports_cons. destruct c as [r|r]; cbn [report].
    + rewrite incNumWorkersDone_eq. cbn [snd].
      rewrite IH by (cbn [numWorkersDone]; apply wrap_size_t_range).
      cbn [numWorkersDone]. rewrite wrap_size_t_succ.
      unfold numDone. cbn [List.filter isDone length]. f_equal. lia.
    + rewrite incNumWorkersDoneWithError_eq. cbn [snd].
      now rewrite IH by exact Hrange.
Qed.

Lemma numWorkersDoneWithError_afterReports (cs : list Completion) :
  forall wd : WorkersSharedData,
    0 <= numWorkersDoneWithError wd < SIZE_MODULUS ->
    numWorkersDoneWithError (afterReports cs wd)
    = wrap_size_t (numWorkersDoneWithError wd
                   + Z.of_nat (numDoneWithError cs)).
Proof.
  induction cs as [|c cs IH]; intros wd Hrange.
  - cbn. rewrite Z.add_0_r. unfold wrap_size_t.
    symmetry. now apply Z.mod_small.
  - rewrite afterReports_cons. destruct c as [r|r]; cbn [report].
    + rewrite incNumWorkersDone_eq. cbn [snd].
      now rewrite IH by exact Hrange.
    + rewrite incNumWorkersDoneWithError_eq. cbn [snd].
      rewrite IH by (cbn [numWorkersDoneWithError]; apply wrap_size_t_range).
      cbn [numWorkersDoneWithError]. rewrite wrap_size_t_succ.
      unfold numDoneWithError, isDoneWithError.
      cbn [List.filter isDone negb length]. f_equal. lia.
Qed.

(** C3 (as the code has it): after any sequence of reports in a phase,
    numWorkersDone is the number of incNumWorkersDone calls and
    numWorkersDoneWithError the number of incNumWorkersDoneWithError calls
    (both modulo 2^64), every call counted, repeated calls of one worker
    included; checkWorkersDone reports true exactly when the number of
    incNumWorkersDone calls equals the number of workers. *)
Theorem checkWorkersDone_counts_every_call
    (wd : WorkersSharedData) (cs : list Completion) :
  freshPhase wd = true ->
  numWorkersDone (afterReports cs wd) = wrap_size_t (Z.of_nat (numDone cs))
  /\ numWorkersDoneWithError (afterReports cs wd)
     = wrap_size_t (Z.of_nat (numDoneWithError cs))
  /\ (fst (checkWorkersDone (afterReports cs wd)) = true
      <-> wrap_size_t (Z.of_nat (numDone cs))
          = Z.of_nat (length (workerVec wd))).
Proof.
  intros Hfresh.
  destruct (freshPhase_inv wd Hfresh) as (Hdone & Herr & _).
  assert (Hn : numWorkersDone (afterReports cs wd)
               = wrap_size_t (Z.of_nat (numDone cs))).
  { rewrite numWorkersDone_afterReports by (rewrite Hdone; now cbv).
    now rewrite Hdone. }
  split; [exact Hn|]. split.
  - rewrite numWorkersDoneWithError_afterReports by (rewrite Herr; now cbv).
    now rewrite Herr.
  - unfold checkWorkersDone. cbn [fst].
    rewrite Z.eqb_eq, length_afterReports, Hn. reflexivity.
Qed.

Lemma checkWorkersDone_counts_every_call_witness :
  fst (checkWorkersDone (afterReports [Done 1%nat; Done 0%nat] pool2)) = true.
Proof.
  apply (proj2 (proj2
           (checkWorkersDone_counts_every_call pool2
              [Done 1%nat; Done 0%nat] eq_refl))).
  reflexivity.
Defined.

(** C3 as stated fails in both directions: one worker reporting twice fills
    the counter although the other never reported, and a pool in which every
    worker reported exactly once, one of them with an error, is not seen as
    done. *)
Lemma checkWorkersDone_once_per_worker_cex :
  (fst (checkWorkersDone (afterReports [Done 0%nat; Done 0%nat] pool2)) = true
   /\ everyWorkerOnce 2 [Done 0%nat; Done 0%nat] = false)
  /\ (fst (checkWorkersDone
             (afterReports [Done 0%nat; DoneWithError 1%nat] pool2)) = false
      /\ everyWorkerOnce 2 [Done 0%nat; DoneWithError 1%nat] = true).
Proof. now vm_compute. Qed.

(** ** NUMA binding *)

Section NumaBinding.

Context `{NumaTk}.

(** C6: applyNumaBinding requests no binding when the zone list is empty
    or NUMA information is unavailable; otherwise it requests exactly one
    binding, to the zone at index workerRank modulo the list size, returns
    normally when the binding succeeds and throws a WorkerException with
    the toolkit's message when it fails. *)
Theorem applyNumaBinding_spec (progArgs : ProgArgs) (this : Worker) :
  ((getNumaZonesVec progArgs = [] \/ isNumaInfoAvailable = false) ->
   applyNumaBinding progArgs this = (Ok tt, []))
  /\ (getNumaZonesVec progArgs <> [] ->
      isNumaInfoAvailable = true ->
      exists zoneNum,
        getNumaZonesVec progArgs
          !! Z.to_nat (workerRank this
                       mod Z.of_nat (length (getNumaZonesVec progArgs)))
        = Some zoneNum
        /\ snd (applyNumaBinding progArgs this) = [to_string zoneNum]
        /\ (bindToNumaZone (to_string zoneNum) = None ->
            fst (applyNumaBinding progArgs this) = Ok tt)
        /\ (forall what,
              bindToNumaZone (to_string zoneNum) = Some what ->
              fst (applyNumaBinding progArgs this)
              = Throw (WorkerException what))).
Proof.
  unfold applyNumaBinding. split.
  - intros [Hempty | Hunavailable].
    + now rewrite Hempty.
    + rewrite Hunavailable. now rewrite orb_true_r.
  - intros Hzones Havailable.
    set (vec := getNumaZonesVec progArgs) in *.
    assert (Hlen : (0 < length vec)%nat)
      by (destruct vec; [congruence | cbn; lia]).
    assert (Hidx : (Z.to_nat (workerRank this mod Z.of_nat (length vec))
                    < length vec)%nat).
    { pose proof (Z.mod_pos_bound (workerRank this)
                    (Z.of_nat (length vec)) ltac:(lia)). lia. }
    destruct (lookup_lt_is_Some_2 vec _ Hidx) as [zoneNum Hzone].
    exists zoneNum. split; [exact Hzone|].
    rewrite Hzone, Havailable. cbn [from_option negb]. unfold id.
    replace (Nat.eqb (length vec) 0) with false
      by (symmetry; apply Nat.eqb_neq; lia).
    cbn [orb].
    destruct (bindToNumaZone (to_string zoneNum)) as [what|] eqn:Hbind;
      cbn [fst snd]; repeat split; congruence.
Qed.

End NumaBinding.

Lemma applyNumaBinding_spec_witness :
  exists zoneNum,
    [0; 3; -1] !! Z.to_nat (4 mod 3) = Some zoneNum
    /\ snd (@applyNumaBinding refusingZone3 (mkProgArgs [0; 3; -1]) (idleWorker 4))
       = [to_string zoneNum]
    /\ (@bindToNumaZone refusingZone3 (to_string zoneNum) = None ->
        fst (@applyNumaBinding refusingZone3 (mkProgArgs [0; 3; -1]) (idleWorker 4))
        = Ok tt)
    /\ (forall what,
          @bindToNumaZone refusingZone3 (to_string zoneNum) = Some what ->
          fst (@applyNumaBinding refusingZone3 (mkProgArgs [0; 3; -1]) (idleWorker 4))
          = Throw (WorkerException what)).
Proof.
  apply (proj2 (@applyNumaBinding_spec refusingZone3
                  (mkProgArgs [0; 3; -1]) (idleWorker 4))).
  - discriminate.
  - reflexivity.
Defined.

(** ** The mounted-device check of the block-device script *)

Import BlockdevScript.

Lemma filter_nil_existsb {A : Type} (p : A -> bool) (l : list A) :
  List.filter p l = [] <-> existsb p l = false.
Proof.
  induction l as [|x l IH]; [now split|].
  cbn [List.filter existsb]. destruct (p x); cbn [orb].
  - split; discriminate.
  - exact IH.
Qed.

Lemma existsb_ext_in {A : Type} (p q : A -> bool) (l : list A) :
  (forall x, p x = q x) -> existsb p l = existsb q l.
Proof.
  intros Hpq. induction l as [|x l IH]; [reflexivity|].
  cbn [existsb]. now rewrite Hpq, IH.
Qed.

Lemma launches_app (a b : list Action) :
  launches (a ++ b) = launches a || launches b.
Proof. apply existsb_app. Qed.

Lemma launches_grep (pattern file : string) (acts : list Action) :
  launches (RunGrep pattern file :: acts) = launches acts.
Proof. reflexivity. Qed.

Lemma launches_outputs (ls : list string) : launches (map Output ls) = false.
Proof. induction ls as [|l ls IH]; [reflexivity | exact IH]. Qed.

Section MountedCheck.

Context `{Grep}.

Lemma grep_status (f : string) (lines : list string) (filenames : list string) :
  readsLiterally filenames ->
  In f filenames ->
  Nat.eqb (fst (grep ("^" ++ f ++ " ")%string (Some lines))) 0
  = mountedDevice lines f.
Proof.
  intros Hlit Hin. unfold grep, mountedDevice. cbn [fst].
  rewrite <- (existsb_ext_in (grepSelects ("^" ++ f ++ " ")%string)
                (String.prefix (f ++ " ")%string) lines)
    by (intros line; now apply Hlit).
  destruct (List.filter (grepSelects ("^" ++ f ++ " ")%string) lines)
    as [|hit hits] eqn:Hhits.
  - apply filter_nil_existsb in Hhits. now rewrite Hhits.
  - destruct (existsb (grepSelects ("^" ++ f ++ " ")%string) lines) eqn:Hex;
      [reflexivity|].
    apply filter_nil_existsb in Hex. congruence.
Qed.

Lemma check_mounted_loop_spec (lines : list string) (filenames : list string) :
  readsLiterally filenames ->
  fst (check_mounted_loop filenames (Some lines))
  = (if existsb (mountedDevice lines) filenames then Exit 1 else Continue)
  /\ launches (snd (check_mounted_loop filenames (Some lines))) = false.
Proof.
  induction filenames as [|f rest IH]; intros Hlit; [now split|].
  assert (Hrest : readsLiterally rest).
  { intros g line Hg. apply Hlit. now right. }
  destruct (IH Hrest) as [IHflow IHacts].
  pose proof (grep_status f lines (f :: rest) Hlit (or_introl eq_refl)) as Hst.
  cbn [check_mounted_loop existsb].
  destruct (grep ("^" ++ f ++ " ")%string (Some lines)) as [status hits] eqn:Hg.
  cbn [fst] in Hst. rewrite Hst.
  destruct (mountedDevice lines f); cbn [orb].
  - cbn [fst snd]. split; [reflexivity|].
    now rewrite launches_app, launches_grep, launches_outputs.
  - destruct (check_mounted_loop rest (Some lines)) as [flow later].
    cbn [fst snd] in *. split; [exact IHflow|].
    now rewrite launches_app, launches_grep, launches_outputs, IHacts.
Qed.

(** C10 (as the code has it): with READPERCENT equal to 100 check_mounted
    returns at once, without running grep on /proc/mounts, and the benchmark
    is launched; otherwise (write tests, READPERCENT equal to 0) the script
    exits with status 1 without launching the benchmark exactly when some
    line of /proc/mounts begins with a resolved device path immediately
    followed by a space. *)
Theorem check_mounted_refuses_mounted_writes
    (v : Vars) (procMounts : option (list string)) :
  (test_eq (READPERCENT v) 100 = true ->
   check_mounted v procMounts = (Continue, [])
   /\ fst (run_from_rwmix v procMounts) = Continue
   /\ greps (snd (run_from_rwmix v procMounts)) = false
   /\ launches (snd (run_from_rwmix v procMounts)) = true)
  /\ (forall lines,
        test_eq (READPERCENT v) 100 = false ->
        procMounts = Some lines ->
        readsLiterally (FILENAMES v) ->
        (existsb (mountedDevice lines) (FILENAMES v) = true ->
         fst (run_from_rwmix v procMounts) = Exit 1
         /\ launches (snd (run_from_rwmix v procMounts)) = false)
        /\ (existsb (mountedDevice lines) (FILENAMES v) = false ->
            fst (run_from_rwmix v procMounts) = Continue
            /\ launches (snd (run_from_rwmix v procMounts)) = true)).
Proof.
  split.
  - intros Hread. unfold run_from_rwmix, check_mounted. rewrite Hread.
    now repeat split.
  - intros lines Hwrite Hmounts Hlit. subst procMounts.
    destruct (check_mounted_loop_spec lines (FILENAMES v) Hlit)
      as [Hflow Hacts].
    unfold run_from_rwmix, check_mounted. rewrite Hwrite.
    destruct (check_mounted_loop (FILENAMES v) (Some lines)) as [flow acts].
    cbn [fst snd] in Hflow, Hacts. subst flow.
    split; intros Hmounted; rewrite Hmounted; cbn [fst snd].
    + now split.
    + split; [reflexivity|]. rewrite launches_app, Hacts. reflexivity.
Qed.

End MountedCheck.

Lemma check_mounted_refuses_mounted_writes_witness :
  fst (@run_from_rwmix grepAnchoredText (sampleVars (Some 0))
         (Some sampleMountsWhole)) = Exit 1
  /\ launches
       (snd (@run_from_rwmix grepAnchoredText (sampleVars (Some 0))
               (Some sampleMountsWhole))) = false.
Proof.
  apply (proj1 (proj2 (@check_mounted_refuses_mounted_writes grepAnchoredText
                         (sampleVars (Some 0)) (Some sampleMountsWhole))
                  sampleMountsWhole eq_refl eq_refl
                  (fun f line _ => eq_refl))).
  reflexivity.
Defined.

(** C10 as stated fails: the path /dev/sda stands at the start of the line
    of /dev/sda1 in /proc/mounts, yet the write test is not refused and the
    benchmark is launched, because the pattern asks for a space right after
    the path. *)
Lemma check_mounted_prefix_only_cex :
  existsb (startsSomeLine sampleMounts) (FILENAMES (sampleVars (Some 0))) = true
  /\ fst (@run_from_rwmix grepAnchoredText (sampleVars (Some 0))
            (Some sampleMounts)) = Continue
  /\ launches (snd (@run_from_rwmix grepAnchoredText (sampleVars (Some 0))
                      (Some sampleMounts))) = true.
Proof. now vm_compute. Qed.

(** * Further properties of the embedded code *)

Open Scope list_scope.

(** ** Worker::waitForNextPhase: the three outcomes *)

(** X1: The call raises nothing but the interruption exception, and only at an
    observation (entry or wakeup) that shows the caller's flag set, all
    earlier observations having kept the worker waiting; the world it leaves
    is that observation. *)
Theorem waitForNextPhase_raised_inv (this : nat) (oldBenchID : uuid)
    (wakeups : list WorkersSharedData) :
  forall (wd wd' : WorkersSharedData) (e : Exception),
    waitForNextPhase this oldBenchID wakeups wd = Raised e wd' ->
    e = WorkerInterruptedException INTERRUPT_MSG
    /\ thisIsInterruptionRequested this wd' = true
    /\ exists pre post,
         wd :: wakeups = pre ++ wd' :: post
         /\ forallb (keepsWaiting this oldBenchID) pre = true.
Proof.
  induction wakeups as [|woken rest IH]; intros wd wd' e Hraised;
    destruct (thisIsInterruptionRequested this wd) eqn:Hflag.
  - rewrite waitForNextPhase_flag in Hraised by exact Hflag.
    inversion Hraised; subst. repeat split; try assumption.
    now exists [], [].
  - destruct (uuid_eqb oldBenchID (currentBenchID wd)) eqn:Hid.
    + rewrite waitForNextPhase_parked in Hraised; [discriminate|].
      unfold keepsWaiting. now rewrite Hid, Hflag.
    + rewrite waitForNextPhase_changed in Hraised by assumption.
      discriminate.
  - rewrite waitForNextPhase_flag in Hraised by exact Hflag.
    inversion Hraised; subst. repeat split; try assumption.
    now exists [], (woken :: rest).
  - destruct (uuid_eqb oldBenchID (currentBenchID wd)) eqn:Hid.
    + assert (Hkeep : keepsWaiting this oldBenchID wd = true)
        by (unfold keepsWaiting; now rewrite Hid, Hflag).
      rewrite waitForNextPhase_keepsWaiting in Hraised by exact Hkeep.
      destruct (IH woken wd' e Hraised) as (He & Hf & pre & post & Heq & Hpre).
      repeat split; try assumption.
      exists (wd :: pre), post. cbn [app forallb].
      now rewrite Heq, Hkeep, Hpre.
    + rewrite waitForNextPhase_changed in Hraised by assumption.
      discriminate.
Qed.

Lemma waitForNextPhase_raised_inv_witness :
  WorkerInterruptedException INTERRUPT_MSG
  = WorkerInterruptedException INTERRUPT_MSG
  /\ thisIsInterruptionRequested 0 pool2Interrupted = true
  /\ exists pre post,
       pool2 :: [pool2; pool2Interrupted; pool2] = pre ++ pool2Interrupted :: post
       /\ forallb (keepsWaiting 0 7%N) pre = true.
Proof.
  apply (waitForNextPhase_raised_inv 0 7%N [pool2; pool2Interrupted; pool2]
           pool2 pool2Interrupted (WorkerInterruptedException INTERRUPT_MSG)).
  reflexivity.
Defined.

(** X2: The call is still parked after the given wakeups exactly when every
    observation, the entry included, shows the old phase identifier and a
    clear flag: a wakeup without a phase change never releases the worker,
    and nothing else keeps it. *)
Theorem waitForNextPhase_blocked_iff (this : nat) (oldBenchID : uuid)
    (wakeups : list WorkersSharedData) (wd : WorkersSharedData) :
  waitForNextPhase this oldBenchID wakeups wd = StillBlocked
  <-> forallb (keepsWaiting this oldBenchID) (wd :: wakeups) = true.
Proof.
  split; [|apply waitForNextPhase_all_waiting].
  revert wd. induction wakeups as [|woken rest IH]; intros wd Hblocked;
    destruct (keepsWaiting this oldBenchID wd) eqn:Hkeep.
  - cbn [forallb]. now rewrite Hkeep.
  - exfalso. unfold keepsWaiting in Hkeep.
    destruct (thisIsInterruptionRequested this wd) eqn:Hflag.
    + rewrite waitForNextPhase_flag in Hblocked by exact Hflag. discriminate.
    + rewrite andb_true_r in Hkeep.
      rewrite waitForNextPhase_changed in Hblocked by assumption.
      discriminate.
  - rewrite waitForNextPhase_keepsWaiting in Hblocked by exact Hkeep.
    change (forallb (keepsWaiting this oldBenchID) (wd :: woken :: rest))
      with (keepsWaiting this oldBenchID wd
            && forallb (keepsWaiting this oldBenchID) (woken :: rest)).
    rewrite Hkeep. now apply IH.
  - exfalso. unfold keepsWaiting in Hkeep.
    destruct (thisIsInterruptionRequested this wd) eqn:Hflag.
    + rewrite waitForNextPhase_flag in Hblocked by exact Hflag. discriminate.
    + rewrite andb_true_r in Hkeep.
      rewrite waitForNextPhase_changed in Hblocked by assumption.
      discriminate.
Qed.

(** X3: Once the call has returned or raised, what the other threads do later
    is never looked at: further wakeups leave the outcome as it is. *)
Theorem waitForNextPhase_decided_prefix (this : nat) (oldBenchID : uuid)
    (wakeups more : list WorkersSharedData) :
  forall wd : WorkersSharedData,
    waitForNextPhase this oldBenchID wakeups wd <> StillBlocked ->
    waitForNextPhase this oldBenchID (wakeups ++ more) wd
    = waitForNextPhase this oldBenchID wakeups wd.
Proof.
  induction wakeups as [|woken rest IH]; intros wd Hdecided;
    destruct (thisIsInterruptionRequested this wd) eqn:Hflag.
  - now rewrite !waitForNextPhase_flag by exact Hflag.
  - destruct (uuid_eqb oldBenchID (currentBenchID wd)) eqn:Hid.
    + exfalso. apply Hdecided. apply waitForNextPhase_parked.
      unfold keepsWaiting. now rewrite Hid, Hflag.
    + now rewrite !waitForNextPhase_changed by assumption.
  - now rewrite !waitForNextPhase_flag by exact Hflag.
  - destruct (uuid_eqb oldBenchID (currentBenchID wd)) eqn:Hid.
    + assert (Hkeep : keepsWaiting this oldBenchID wd = true)
        by (unfold keepsWaiting; now rewrite Hid, Hflag).
      rewrite <- app_comm_cons.
      rewrite !waitForNextPhase_keepsWaiting by exact Hkeep.
      apply IH. now rewrite waitForNextPhase_keepsWaiting in Hdecided.
    + now rewrite !waitForNextPhase_changed by assumption.
Qed.

Lemma waitForNextPhase_decided_prefix_witness :
  waitForNextPhase 0 7%N ([pool2; pool2Interrupted] ++ [pool2; pool2]) pool2
  = waitForNextPhase 0 7%N [pool2; pool2Interrupted] pool2.
Proof.
  apply (waitForNextPhase_decided_prefix 0 7%N [pool2; pool2Interrupted]
           [pool2; pool2] pool2).
  discriminate.
Defined.

(** ** Worker::applyNumaBinding: zone assignment *)

Section NumaAssignment.

Context `{NumaTk}.

(** X4: Zones are handed out round-robin: two workers whose ranks differ by a
    multiple of the number of configured zones make the same request and get
    the same result. *)
Theorem applyNumaBinding_rank_periodic
    (progArgs : ProgArgs) (w1 w2 : Worker) (k : Z) :
  workerRank w2
  = workerRank w1 + k * Z.of_nat (length (getNumaZonesVec progArgs)) ->
  applyNumaBinding progArgs w2 = applyNumaBinding progArgs w1.
Proof.
  intros Hrank. unfold applyNumaBinding.
  now rewrite Hrank, Z_mod_plus_full.
Qed.

(** X5: The call makes at most one bind request; a request names one of the
    configured zones and is made only when NUMA information is available;
    the only exception that leaves the call is a WorkerException carrying
    the message of the failed bind of that zone. *)
Theorem applyNumaBinding_outcome_inv (progArgs : ProgArgs) (this : Worker) :
  (length (snd (applyNumaBinding progArgs this)) <= 1)%nat
  /\ (forall zoneStr,
        In zoneStr (snd (applyNumaBinding progArgs this)) ->
        isNumaInfoAvailable = true
        /\ exists zoneNum,
             In zoneNum (getNumaZonesVec progArgs)
             /\ zoneStr = to_string zoneNum)
  /\ (forall e,
        fst (applyNumaBinding progArgs this) = Throw e ->
        exists zoneNum what,
          In zoneNum (getNumaZonesVec progArgs)
          /\ bindToNumaZone (to_string zoneNum) = Some what
          /\ e = WorkerException what
          /\ snd (applyNumaBinding progArgs this) = [to_string zoneNum]).
Proof.
  unfold applyNumaBinding.
  set (vec := getNumaZonesVec progArgs).
  destruct (Nat.eqb (length vec) 0) eqn:Hlen; cbn [orb].
  { cbn [fst snd length In].
    split; [lia | split; [intros ? [] | intros ? Hd; discriminate Hd]]. }
  destruct isNumaInfoAvailable eqn:Havail; cbn [negb].
  2: { cbn [fst snd length In].
       split; [lia | split; [intros ? [] | intros ? Hd; discriminate Hd]]. }
  apply Nat.eqb_neq in Hlen.
  assert (Hidx : (Z.to_nat (workerRank this mod Z.of_nat (length vec))
                  < length vec)%nat).
  { pose proof (Z.mod_pos_bound (workerRank this)
                  (Z.of_nat (length vec)) ltac:(lia)). lia. }
  destruct (lookup_lt_is_Some_2 vec _ Hidx) as [zoneNum Hzone].
  assert (Hin : In zoneNum vec).
  { apply list_elem_of_In. eapply list_elem_of_lookup_2. exact Hzone. }
  rewrite Hzone. cbn [from_option]. unfold id.
  destruct (bindToNumaZone (to_string zoneNum)) as [what|] eqn:Hbind;
    cbn [fst snd length In]; (split; [lia|]); split.
  - intros zoneStr [<- | []]. split; [reflexivity|]. now exists zoneNum.
  - intros e He. inversion He; subst. now exists zoneNum, what.
  - intros zoneStr [<- | []]. split; [reflexivity|]. now exists zoneNum.
  - discriminate.
Qed.

End NumaAssignment.

Lemma applyNumaBinding_rank_periodic_witness :
  @applyNumaBinding refusingZone3 (mkProgArgs [0; 3; -1]) (idleWorker 7)
  = @applyNumaBinding refusingZone3 (mkProgArgs [0; 3; -1]) (idleWorker 1).
Proof.
  apply (@applyNumaBinding_rank_periodic refusingZone3
           (mkProgArgs [0; 3; -1]) (idleWorker 1) (idleWorker 7) 2).
  reflexivity.
Defined.

Lemma applyNumaBinding_outcome_inv_witness :
  exists zoneNum what,
    In zoneNum [0; 3; -1]
    /\ @bindToNumaZone refusingZone3 (to_string zoneNum) = Some what
    /\ WorkerException "no such zone" = WorkerException what
    /\ snd (@applyNumaBinding refusingZone3 (mkProgArgs [0; 3; -1])
              (idleWorker 4))
       = [to_string zoneNum].
Proof.
  apply (proj2 (proj2 (@applyNumaBinding_outcome_inv refusingZone3
                         (mkProgArgs [0; 3; -1]) (idleWorker 4)))).
  reflexivity.
Defined.

Lemma to_string_injective (a b : Z) : to_string a = to_string b -> a = b.
Proof.
  unfold to_string. intros Heq.
  apply DecimalZ.to_int_inj.
  pose proof (NilEmpty.isi (Z.to_int a)) as Ha.
  pose proof (NilEmpty.isi (Z.to_int b)) as Hb.
  rewrite Heq in Ha. congruence.
Qed.

Section NumaIdentifiers.

Context `{NumaTk}.

Lemma applyNumaBinding_request (progArgs : ProgArgs) (this : Worker) :
  getNumaZonesVec progArgs <> [] ->
  isNumaInfoAvailable = true ->
  exists zoneNum,
    getNumaZonesVec progArgs
      !! Z.to_nat (workerRank this
                   mod Z.of_nat (length (getNumaZonesVec progArgs)))
    = Some zoneNum
    /\ snd (applyNumaBinding progArgs this) = [to_string zoneNum].
Proof.
  intros Hzones Havail. unfold applyNumaBinding.
  set (vec := getNumaZonesVec progArgs) in *.
  assert (Hlen : (0 < length vec)%nat)
    by (destruct vec; [congruence | cbn; lia]).
  assert (Hidx : (Z.to_nat (workerRank this mod Z.of_nat (length vec))
                  < length vec)%nat).
  { pose proof (Z.mod_pos_bound (workerRank this)
                  (Z.of_nat (length vec)) ltac:(lia)). lia. }
  destruct (lookup_lt_is_Some_2 vec _ Hidx) as [zoneNum Hzone].
  exists zoneNum. split; [exact Hzone|].
  rewrite Hzone, Havail. cbn [from_option negb]. unfold id.
  replace (Nat.eqb (length vec) 0) with false
    by (symmetry; apply Nat.eqb_neq; lia).
  cbn [orb]. now destruct (bindToNumaZone (to_string zoneNum)).
Qed.

(** X6: Zone identifiers are faithful: with zones configured and NUMA
    information available, two workers send the same identifier to the
    toolkit exactly when the zone numbers selected for them are equal. *)
Theorem applyNumaBinding_same_request_iff_same_zone
    (progArgs : ProgArgs) (w1 w2 : Worker) :
  getNumaZonesVec progArgs <> [] ->
  isNumaInfoAvailable = true ->
  snd (applyNumaBinding progArgs w1) = snd (applyNumaBinding progArgs w2)
  <-> getNumaZonesVec progArgs
        !! Z.to_nat (workerRank w1
                     mod Z.of_nat (length (getNumaZonesVec progArgs)))
      = getNumaZonesVec progArgs
          !! Z.to_nat (workerRank w2
                       mod Z.of_nat (length (getNumaZonesVec progArgs))).
Proof.
  intros Hzones Havail.
  destruct (applyNumaBinding_request progArgs w1 Hzones Havail)
    as (z1 & Hz1 & Hreq1).
  destruct (applyNumaBinding_request progArgs w2 Hzones Havail)
    as (z2 & Hz2 & Hreq2).
  rewrite Hreq1, Hreq2, Hz1, Hz2. split.
  - intros Heq. inversion Heq as [Hstr].
    now rewrite (to_string_injective z1 z2 Hstr).
  - intros Heq. inversion Heq. reflexivity.
Qed.

End NumaIdentifiers.

Lemma applyNumaBinding_same_request_iff_same_zone_witness :
  snd (@applyNumaBinding refusingZone3 (mkProgArgs [0; 3; 0]) (idleWorker 0))
  = snd (@applyNumaBinding refusingZone3 (mkProgArgs [0; 3; 0]) (idleWorker 2)).
Proof.
  apply (@applyNumaBinding_same_request_iff_same_zone refusingZone3
           (mkProgArgs [0; 3; 0]) (idleWorker 0) (idleWorker 2)).
  - discriminate.
  - reflexivity.
  - reflexivity.
Defined.

(** ** test_blockdev_rand.sh: argument parsing *)

Section ScriptArguments.

Context {IO : IntegerOperands}.

Lemma test_ne_both (x : option Z) :
  test_ne x 0 && test_ne x 100 = false
  <-> (forall n, x = Some n -> n = 0 \/ n = 100).
Proof.
  destruct x as [v|]; cbn [test_ne].
  - destruct (Z.eqb_spec v 0) as [-> | H0]; cbn [negb andb].
    + split; [intros _ n Hn; inversion Hn; now left | reflexivity].
    + destruct (Z.eqb_spec v 100) as [-> | H100]; cbn [negb].
      * split; [intros _ n Hn; inversion Hn; now right | reflexivity].
      * split; [discriminate|]. intros Hall.
        destruct (Hall v eq_refl); contradiction.
  - split; [intros _ n Hn; discriminate Hn | reflexivity].
Qed.

(** X7: parse_args lets the script go on exactly when the first parameter is
    not an option word, five parameters remain after an optional leading
    [--], and the fourth is not an integer other than 0 and 100; the five
    variables are then those parameters, in order and unchanged. *)
Theorem parse_args_accepts_iff
    (script0 : string) (args : list string) (p : Positional) :
  parse_args script0 args = Go p
  <-> (match args with a :: _ => isOptionWord a | [] => false end = false
       /\ afterOptions args
          = [DEVICE p; argIODEPTH p; argNUMJOBS p; argREADPERCENT p;
             argBLOCKSIZE p]
       /\ (forall n,
             integerOperand (argREADPERCENT p) = Some n -> n = 0 \/ n = 100)).
Proof.
  unfold parse_args.
  destruct (match args with a :: _ => isOptionWord a | [] => false end).
  { split; [discriminate | intros [Hd _]; discriminate Hd]. }
  destruct (afterOptions args) as [|a1 [|a2 [|a3 [|a4 [|a5 [|a6 rest]]]]]];
    try (split; [discriminate | intros (_ & Hd & _); discriminate Hd]).
  destruct (test_ne (integerOperand a4) 0 && test_ne (integerOperand a4) 100)
    eqn:Hne.
  - split; [discriminate|]. intros (_ & Heq & Hint).
    inversion Heq; subst. apply (proj2 (test_ne_both _)) in Hint. congruence.
  - pose proof (proj1 (test_ne_both _) Hne) as Hint. split.
    + intros Hgo. inversion Hgo; subst. cbn. now repeat split.
    + intros (_ & Heq & _). inversion Heq. now destruct p.
Qed.

Lemma parse_args_stop_inv
    (script0 : string) (args : list string) (status : nat) (out : list Action) :
  parse_args script0 args = Stop status out ->
  status = 1%nat
  /\ exists pre,
       out = pre ++ usage script0
       /\ (pre = [] \/ exists line, pre = [Output line]).
Proof.
  unfold parse_args.
  destruct (match args with a :: _ => isOptionWord a | [] => false end).
  { intros Hstop. inversion Hstop. split; [reflexivity|].
    exists []. split; [reflexivity | now left]. }
  destruct (afterOptions args) as [|a1 [|a2 [|a3 [|a4 [|a5 [|a6 rest]]]]]];
    try (intros Hstop; inversion Hstop; split; [reflexivity|];
         eexists [_]; split; [reflexivity | right; eexists; reflexivity]).
  destruct (test_ne (integerOperand a4) 0 && test_ne (integerOperand a4) 100).
  - intros Hstop. inversion Hstop. split; [reflexivity|].
    eexists [_]. split; [reflexivity | right; eexists; reflexivity].
  - discriminate.
Qed.

(** X8: Every refusal of parse_args ends the script with status 1 after the
    usage text, preceded by at most one error line; nothing else is
    printed. *)
Theorem parse_args_rejects_with_usage
    (script0 : string) (args : list string) (status : nat) (out : list Action) :
  parse_args script0 args = Stop status out ->
  status = 1%nat
  /\ exists pre,
       out = pre ++ usage script0
       /\ (pre = [] \/ exists line, pre = [Output line]).
Proof. apply parse_args_stop_inv. Qed.

(** A READPERCENT that [test] does not read as an integer passes the
    validation of parse_args: both [-ne] tests fail, so the error branch is
    not taken. *)
Theorem parse_args_keeps_non_integer_readpercent
    (script0 d i n r b : string) :
  isOptionWord d = false ->
  String.eqb d "--" = false ->
  integerOperand r = None ->
  parse_args script0 [d; i; n; r; b] = Go (mkPositional d i n r b).
Proof.
  intros Hopt Hend Hint. unfold parse_args, afterOptions.
  now rewrite Hopt, Hend, Hint.
Qed.

End ScriptArguments.

Lemma parse_args_rejects_with_usage_witness :
  1%nat = 1%nat
  /\ exists pre,
       (Output "ERROR: READPERCENT must be either 0 or 100." :: usage "t.sh")
       = pre ++ usage "t.sh"
       /\ (pre = [] \/ exists line, pre = [Output line]).
Proof.
  apply (@parse_args_rejects_with_usage plainDecimals "t.sh"
           ["sda"; "16"; "16"; "50"; "4k"]).
  reflexivity.
Defined.

Lemma parse_args_keeps_non_integer_readpercent_witness :
  @parse_args plainDecimals "t.sh" ["sda"; "16"; "16"; "half"; "4k"]
  = Go (mkPositional "sda" "16" "16" "half" "4k").
Proof.
  apply (@parse_args_keeps_non_integer_readpercent plainDecimals);
    reflexivity.
Defined.

(** ** test_blockdev_rand.sh: device resolution *)

Section DeviceResolution.

Context {FS : FileSystem}.

Lemma prepare_arg_filenames_loop_cons (dev : string) (rest filenames : list string) :
  prepare_arg_filenames_loop (dev :: rest) filenames
  = match resolvedPath dev with
    | Some path => prepare_arg_filenames_loop rest (filenames ++ [path])
    | None => Stop 1 [Output ("ERROR: Given device not found: " ++ dev)%string]
    end.
Proof.
  cbn [prepare_arg_filenames_loop]. unfold resolvedPath.
  destruct (test_e (nvmeshPath dev)); [reflexivity|].
  now destruct (test_e (devPath dev)).
Qed.

Lemma resolvedPath_exists (dev path : string) :
  resolvedPath dev = Some path ->
  test_e path = true
  /\ (path = nvmeshPath dev
      \/ (test_e (nvmeshPath dev) = false /\ path = devPath dev)).
Proof.
  unfold resolvedPath.
  destruct (test_e (nvmeshPath dev)) eqn:Hnv.
  - intros Hp. inversion Hp; subst. split; [exact Hnv | now left].
  - destruct (test_e (devPath dev)) eqn:Hdev; [|discriminate].
    intros Hp. inversion Hp; subst. split; [exact Hdev | now right].
Qed.

Lemma prepare_arg_filenames_loop_go (devs : list string) :
  forall filenames result : list string,
    prepare_arg_filenames_loop devs filenames = Go result
    <-> exists paths,
          Forall2 (fun dev path => resolvedPath dev = Some path) devs paths
          /\ result = filenames ++ paths.
Proof.
  induction devs as [|dev rest IH]; intros filenames result.
  - cbn [prepare_arg_filenames_loop]. split.
    + intros Hgo. inversion Hgo; subst. exists [].
      split; [constructor | now rewrite app_nil_r].
    + intros (paths & Hall & ->). inversion Hall; subst.
      now rewrite app_nil_r.
  - rewrite prepare_arg_filenames_loop_cons.
    destruct (resolvedPath dev) as [path|] eqn:Hres.
    + rewrite IH. split.
      * intros (paths & Hall & ->). exists (path :: paths).
        split; [now constructor | now rewrite <- app_assoc].
      * intros (paths & Hall & ->). inversion Hall; subst.
        assert (y = path) by congruence. subst y.
        eexists. split; [eassumption | now rewrite <- app_assoc].
    + split; [discriminate|].
      intros (paths & Hall & _). inversion Hall; subst. congruence.
Qed.

Lemma prepare_arg_filenames_loop_stop (devs : list string) :
  forall (filenames : list string) (status : nat) (out : list Action),
    prepare_arg_filenames_loop devs filenames = Stop status out
    <-> exists found dev later,
          devs = found ++ dev :: later
          /\ Forall (fun d => resolvedPath d <> None) found
          /\ resolvedPath dev = None
          /\ status = 1%nat
          /\ out = [Output ("ERROR: Given device not found: " ++ dev)%string].
Proof.
  induction devs as [|dev rest IH]; intros filenames status out.
  - cbn [prepare_arg_filenames_loop]. split; [discriminate|].
    intros (found & d & later & Heq & _). now destruct found.
  - rewrite prepare_arg_filenames_loop_cons.
    destruct (resolvedPath dev) as [path|] eqn:Hres.
    + rewrite IH. split.
      * intros (found & d & later & -> & Hfound & Hd & Hst & Hout).
        exists (dev :: found), d, later. repeat split; try assumption.
        constructor; [congruence | exact Hfound].
      * intros (found & d & later & Heq & Hfound & Hd & Hst & Hout).
        destruct found as [|f found]; cbn in Heq; inversion Heq; subst.
        -- congruence.
        -- inversion Hfound; subst.
           exists found, d, later. now repeat split.
    + split.
      * intros Hstop. inversion Hstop; subst.
        exists [], dev, rest. now repeat split.
      * intros (found & d & later & Heq & Hfound & Hd & -> & ->).
        destruct found as [|f found]; cbn in Heq; inversion Heq; subst.
        -- reflexivity.
        -- inversion Hfound; subst. congruence.
Qed.

(** X9: prepare_arg_filenames succeeds exactly when every word of DEVICE names
    a device; FILENAMES then holds one path per word, in the order of the
    words, each path exists, and a word is looked up under /dev only when
    /dev/nvmesh has no such volume. *)
Theorem prepare_arg_filenames_resolves
    (device : string) (filenames : list string) :
  patternFree device = true ->
  (prepare_arg_filenames device = Go filenames
   <-> Forall2 (fun dev path => resolvedPath dev = Some path)
         (splitIFS device EmptyString) filenames)
  /\ (prepare_arg_filenames device = Go filenames ->
      Forall2 (fun dev path =>
                 test_e path = true
                 /\ (path = nvmeshPath dev
                     \/ (test_e (nvmeshPath dev) = false
                         /\ path = devPath dev)))
        (splitIFS device EmptyString) filenames).
Proof.
  intros _. unfold prepare_arg_filenames.
  assert (Hiff : prepare_arg_filenames_loop (splitIFS device EmptyString) []
                 = Go filenames
                 <-> Forall2 (fun dev path => resolvedPath dev = Some path)
                       (splitIFS device EmptyString) filenames).
  { rewrite prepare_arg_filenames_loop_go. split.
    - now intros (paths & Hall & ->).
    - intros Hall. now exists filenames. }
  split; [exact Hiff|].
  intros Hgo. apply Hiff in Hgo. clear Hiff.
  induction Hgo as [|dev path devs paths Hres _ IH]; constructor.
  - now apply resolvedPath_exists.
  - exact IH.
Qed.

(** X10: prepare_arg_filenames ends the script exactly when some word of DEVICE
    names no device under /dev/nvmesh or /dev; the status is 1 and the one
    line printed names the first such word. *)
Theorem prepare_arg_filenames_missing_device
    (device : string) (status : nat) (out : list Action) :
  patternFree device = true ->
  prepare_arg_filenames device = Stop status out
  <-> exists found dev later,
        splitIFS device EmptyString = found ++ dev :: later
        /\ Forall (fun d => resolvedPath d <> None) found
        /\ test_e (nvmeshPath dev) = false
        /\ test_e (devPath dev) = false
        /\ status = 1%nat
        /\ out = [Output ("ERROR: Given device not found: " ++ dev)%string].
Proof.
  intros _. unfold prepare_arg_filenames.
  rewrite prepare_arg_filenames_loop_stop.
  split; intros (found & dev & later & Heq & Hfound & Hrest);
    exists found, dev, later; (split; [exact Heq|]); (split; [exact Hfound|]).
  - destruct Hrest as (Hnone & Hst & Hout). unfold resolvedPath in Hnone.
    destruct (test_e (nvmeshPath dev)); [discriminate|].
    destruct (test_e (devPath dev)); [discriminate|]. now repeat split.
  - destruct Hrest as (Hnv & Hdev & Hst & Hout).
    unfold resolvedPath. rewrite Hnv, Hdev. now repeat split.
Qed.

End DeviceResolution.

Lemma prepare_arg_filenames_resolves_witness :
  @prepare_arg_filenames sampleFiles "myvol  sda"
  = Go ["/dev/nvmesh/myvol"; "/dev/sda"]%string.
Proof.
  apply (proj1 (@prepare_arg_filenames_resolves sampleFiles "myvol  sda"
                  ["/dev/nvmesh/myvol"; "/dev/sda"]%string eq_refl)).
  repeat constructor.
Defined.

Lemma prepare_arg_filenames_missing_device_witness :
  @prepare_arg_filenames sampleFiles "sda sdb nvme0n1"
  = Stop 1 [Output "ERROR: Given device not found: sdb"].
Proof.
  apply (@prepare_arg_filenames_missing_device sampleFiles "sda sdb nvme0n1"
           1%nat [Output "ERROR: Given device not found: sdb"] eq_refl).
  exists ["sda"%string], "sdb"%string, ["nvme0n1"%string].
  repeat split. repeat constructor. discriminate.
Defined.

(** ** test_blockdev_rand.sh: more on the mounted-device check *)

Lemma grepPatterns_app (a b : list Action) :
  grepPatterns (a ++ b) = grepPatterns a ++ grepPatterns b.
Proof.
  induction a as [|x a IH]; [reflexivity|].
  destruct x; cbn [app grepPatterns]; now rewrite IH.
Qed.

Lemma grepPatterns_outputs (ls : list string) :
  grepPatterns (map Output ls) = [].
Proof. induction ls as [|l ls IH]; [reflexivity | exact IH]. Qed.

Section MountedCheckMore.

Context {G : Grep}.

Lemma check_mounted_loop_cons (f : string) (rest : list string)
    (procMounts : option (list string)) :
  check_mounted_loop (f :: rest) procMounts
  = if Nat.eqb (fst (grep ("^" ++ f ++ " ")%string procMounts)) 0
    then (Exit 1,
          (RunGrep ("^" ++ f ++ " ")%string PROC_MOUNTS
             :: map Output (snd (grep ("^" ++ f ++ " ")%string procMounts)))
          ++ [Output (MOUNTED_MSG ++ f)%string])
    else (fst (check_mounted_loop rest procMounts),
          (RunGrep ("^" ++ f ++ " ")%string PROC_MOUNTS
             :: map Output (snd (grep ("^" ++ f ++ " ")%string procMounts)))
          ++ snd (check_mounted_loop rest procMounts)).
Proof.
  cbn [check_mounted_loop].
  destruct (grep ("^" ++ f ++ " ")%string procMounts) as [status hits].
  cbn [fst snd]. destruct (Nat.eqb status 0); [reflexivity|].
  now destruct (check_mounted_loop rest procMounts).
Qed.

Lemma grep_hit_iff (pattern : string) (lines : list string) :
  Nat.eqb (fst (grep pattern (Some lines))) 0 = true
  <-> List.filter (grepSelects pattern) lines <> [].
Proof.
  unfold grep. cbn [fst].
  destruct (List.filter (grepSelects pattern) lines); cbn.
  - split; [discriminate | congruence].
  - split; [discriminate | reflexivity].
Qed.

Lemma check_mounted_loop_flow (filenames : list string)
    (procMounts : option (list string)) :
  (fst (check_mounted_loop filenames procMounts) = Continue
   \/ fst (check_mounted_loop filenames procMounts) = Exit 1)
  /\ launches (snd (check_mounted_loop filenames procMounts)) = false.
Proof.
  induction filenames as [|f rest [IHflow IHacts]]; [now split; [left|]|].
  rewrite check_mounted_loop_cons.
  destruct (Nat.eqb (fst (grep ("^" ++ f ++ " ")%string procMounts)) 0);
    cbn [fst snd].
  - split; [now right|].
    now rewrite launches_app, launches_grep, launches_outputs.
  - split; [exact IHflow|].
    now rewrite launches_app, launches_grep, launches_outputs, IHacts.
Qed.

(** X11: When /proc/mounts cannot be read the check lets every test through:
    grep ends with status 2, which the script does not tell apart from "no
    match", so the benchmark is launched, write tests included. *)
Theorem unreadable_mounts_pass_the_check (v : Vars) :
  fst (check_mounted v None) = Continue
  /\ fst (run_from_rwmix v None) = Continue
  /\ launches (snd (run_from_rwmix v None)) = true.
Proof.
  assert (Hloop : forall fs, fst (check_mounted_loop fs None) = Continue).
  { induction fs as [|f rest IH]; [reflexivity|].
    rewrite check_mounted_loop_cons. exact IH. }
  assert (Hcheck : fst (check_mounted v None) = Continue).
  { unfold check_mounted. destruct (test_eq (READPERCENT v) 100);
      [reflexivity | apply Hloop]. }
  split; [exact Hcheck|]. unfold run_from_rwmix.
  destruct (check_mounted v None) as [flow acts]. cbn [fst] in Hcheck.
  subst flow. cbn [fst snd]. split; [reflexivity|].
  rewrite launches_app. cbn. apply orb_true_r.
Qed.



(** X13: The check stops at the first mounted device: grep is run for the paths
    up to and including it and for none after it, the script exits with
    status 1, and its last line names that device. *)
Theorem check_mounted_loop_first_mounted
    (found later : list string) (f : string) (lines : list string) :
  (forall g, In g found ->
             List.filter (grepSelects ("^" ++ g ++ " ")%string) lines = []) ->
  List.filter (grepSelects ("^" ++ f ++ " ")%string) lines <> [] ->
  fst (check_mounted_loop (found ++ f :: later) (Some lines)) = Exit 1
  /\ grepPatterns (snd (check_mounted_loop (found ++ f :: later) (Some lines)))
     = map (fun g => ("^" ++ g ++ " ")%string) (found ++ [f])
  /\ exists acts,
       snd (check_mounted_loop (found ++ f :: later) (Some lines))
       = acts ++ [Output (MOUNTED_MSG ++ f)%string].
Proof.
  intros Hfound Hhit. apply grep_hit_iff in Hhit.
  induction found as [|g found IH]; cbn [app].
  - rewrite check_mounted_loop_cons, Hhit. cbn [fst snd map].
    split; [reflexivity|]. split.
    + rewrite grepPatterns_app. cbn [grepPatterns].
      now rewrite grepPatterns_outputs.
    + eexists. reflexivity.
  - rewrite check_mounted_loop_cons.
    assert (Hg : Nat.eqb (fst (grep ("^" ++ g ++ " ")%string (Some lines))) 0
                 = false).
    { destruct (Nat.eqb (fst (grep ("^" ++ g ++ " ")%string (Some lines))) 0)
        eqn:Hq; [|reflexivity].
      apply grep_hit_iff in Hq. exfalso. apply Hq, Hfound. now left. }
    rewrite Hg. cbn [fst snd].
    destruct IH as (IHflow & IHpats & acts & IHacts).
    { intros h Hh. apply Hfound. now right. }
    split; [exact IHflow|]. split.
    + rewrite grepPatterns_app. cbn [grepPatterns map].
      now rewrite grepPatterns_outputs, IHpats.
    + rewrite IHacts. eexists. rewrite app_assoc. reflexivity.
Qed.

End MountedCheckMore.


Lemma check_mounted_loop_first_mounted_witness :
  fst (@check_mounted_loop grepAnchoredText
         (["/dev/nvme0n1"%string] ++ "/dev/sda"%string :: ["/dev/sdb"%string])
         (Some sampleMountsWhole))
  = Exit 1.
Proof.
  apply (proj1 (@check_mounted_loop_first_mounted grepAnchoredText
                  ["/dev/nvme0n1"%string] ["/dev/sdb"%string] "/dev/sda"%string
                  sampleMountsWhole
                  ltac:(intros g [<- | []]; reflexivity)
                  ltac:(discriminate))).
Defined.

(** ** test_blockdev_rand.sh: the words of the launched command *)

Lemma string_app_assoc (a b c : string) :
  ((a ++ b) ++ c)%string = (a ++ (b ++ c))%string.
Proof. induction a as [|x a IH]; [reflexivity | cbn; now rewrite IH]. Qed.

Lemma ifsFree_cons (c : ascii) (w : string) :
  ifsFree (String c w) = negb (isIFS c) && ifsFree w.
Proof. reflexivity. Qed.

Lemma splitIFS_word (w : string) :
  forall s word : string,
    ifsFree w = true ->
    splitIFS (w ++ s)%string word = splitIFS s (word ++ w)%string.
Proof.
  induction w as [|c w IH]; intros s word Hfree.
  - cbn [String.append]. f_equal.
    clear. induction word as [|x word IHw]; [reflexivity | cbn; now rewrite <- IHw].
  - rewrite ifsFree_cons in Hfree. apply andb_true_iff in Hfree as [Hc Hw].
    apply negb_true_iff in Hc.
    cbn [String.append splitIFS]. rewrite Hc, IH by exact Hw.
    now rewrite string_app_assoc.
Qed.

Lemma splitIFS_word_space (w s : string) :
  String.eqb w EmptyString = false ->
  ifsFree w = true ->
  splitIFS (w ++ String " " s)%string EmptyString = w :: splitIFS s EmptyString.
Proof.
  intros Hne Hfree. rewrite splitIFS_word by exact Hfree.
  cbn [String.append splitIFS]. destruct w; [discriminate | reflexivity].
Qed.

Lemma plainWord_inv (w : string) :
  plainWord w = true -> String.eqb w EmptyString = false /\ ifsFree w = true.
Proof.
  unfold plainWord. intros [[Hne Hfree]%andb_true_iff _]%andb_true_iff.
  now apply negb_true_iff in Hne.
Qed.

Lemma splitIFS_joinWords (ws : list string) (s : string) :
  Forall (fun w => plainWord w = true) ws ->
  splitIFS (joinWords ws ++ String " " s)%string EmptyString
  = ws ++ splitIFS s EmptyString.
Proof.
  induction ws as [|w ws IH]; intros Hall; [reflexivity|].
  inversion Hall as [|? ? Hw Hws]; subst.
  destruct (plainWord_inv w Hw) as [Hne Hfree].
  destruct ws as [|w' ws].
  - cbn [joinWords String.concat app]. now apply splitIFS_word_space.
  - change (joinWords (w :: w' :: ws))
      with (w ++ String " " (joinWords (w' :: ws)))%string.
    rewrite string_app_assoc.
    change (String " " (joinWords (w' :: ws)) ++ String " " s)%string
      with (String " " (joinWords (w' :: ws) ++ String " " s))%string.
    rewrite splitIFS_word_space by assumption.
    cbn [app]. f_equal. now apply IH.
Qed.

(** X14: The command is run through an unquoted expansion, so its words are the
    arguments the benchmark sees: when the executable path, the resolved
    paths and the three option values are plain words, every resolved path
    arrives as one argument, in order, between the executable and the
    options. *)
Theorem benchmark_argv (exe : string) (v : Vars) :
  plainWord exe = true ->
  Forall (fun f => plainWord f = true) (FILENAMES v) ->
  plainWord (IODEPTH v) = true ->
  plainWord (NUMJOBS v) = true ->
  plainWord (BLOCKSIZE v) = true ->
  argv (benchmarkCommand exe v)
  = [exe] ++ FILENAMES v
    ++ ["--iodepth"; IODEPTH v; "-t"; NUMJOBS v; prepare_arg_rwmix v; "-b";
        BLOCKSIZE v; "--direct"; "--rand"; "--randalign"; "--lat";
        "--latpercent"; "--randamount"; "1T"; "--timelimit"; "600"]%string.
Proof.
  intros Hexe Hfiles Hio Hnj Hbs.
  destruct (plainWord_inv _ Hexe) as [Hexe1 Hexe2].
  destruct (plainWord_inv _ Hio) as [Hio1 Hio2].
  destruct (plainWord_inv _ Hnj) as [Hnj1 Hnj2].
  destruct (plainWord_inv _ Hbs) as [Hbs1 Hbs2].
  unfold argv.
  change (benchmarkCommand exe v)
    with (exe ++ String " " (joinWords (FILENAMES v) ++ String " "
           ("--iodepth" ++ String " " (IODEPTH v ++ String " "
           ("-t" ++ String " " (NUMJOBS v ++ String " "
           (prepare_arg_rwmix v ++ String " "
           ("-b" ++ String " " (BLOCKSIZE v ++ String " "
           " --direct --rand --randalign --lat --latpercent --randamount 1T --timelimit 600")))))))))%string.
  rewrite (splitIFS_word_space exe) by assumption.
  rewrite splitIFS_joinWords by assumption.
  rewrite (splitIFS_word_space "--iodepth") by reflexivity.
  rewrite (splitIFS_word_space (IODEPTH v)) by assumption.
  rewrite (splitIFS_word_space "-t") by reflexivity.
  rewrite (splitIFS_word_space (NUMJOBS v)) by assumption.
  rewrite (splitIFS_word_space (prepare_arg_rwmix v))
    by (unfold prepare_arg_rwmix;
        now destruct (READPERCENT_UNQUOTED_EQ_0 v)).
  rewrite (splitIFS_word_space "-b") by reflexivity.
  rewrite (splitIFS_word_space (BLOCKSIZE v)) by assumption.
  reflexivity.
Qed.

Lemma benchmark_argv_witness :
  argv (benchmarkCommand "./../bin/elbencho" (sampleVars (Some 0)))
  = ["./../bin/elbencho"; "/dev/sda"; "--iodepth"; "16"; "-t"; "16"; "-w";
     "-b"; "4k"; "--direct"; "--rand"; "--randalign"; "--lat";
     "--latpercent"; "--randamount"; "1T"; "--timelimit"; "600"]%string.
Proof.
  apply (benchmark_argv "./../bin/elbencho" (sampleVars (Some 0)));
    try reflexivity.
  repeat constructor.
Defined.

(** ** test_blockdev_rand.sh: the whole script *)

Lemma launches_usage (script0 : string) : launches (usage script0) = false.
Proof. reflexivity. Qed.

Section WholeScript.

Context {G : Grep} {FS : FileSystem} {IO : IntegerOperands}.

Lemma run_from_rwmix_outcome (v : Vars) (procMounts : option (list string)) :
  (fst (run_from_rwmix v procMounts) = Exit 1
   /\ launches (snd (run_from_rwmix v procMounts)) = false)
  \/ (fst (run_from_rwmix v procMounts) = Continue
      /\ (test_eq (READPERCENT v) 100 = true
          \/ fst (check_mounted_loop (FILENAMES v) procMounts) = Continue)
      /\ exists acts,
           snd (run_from_rwmix v procMounts)
           = acts ++ [Launch (benchmarkCommand (EXE_PATH v) v)]
           /\ launches acts = false).
Proof.
  unfold run_from_rwmix, check_mounted.
  destruct (test_eq (READPERCENT v) 100).
  - right. cbn [fst snd]. split; [reflexivity|]. split; [now left|].
    eexists [_; _]. split; reflexivity.
  - destruct (check_mounted_loop_flow (FILENAMES v) procMounts)
      as [[Hflow | Hflow] Hacts];
      destruct (check_mounted_loop (FILENAMES v) procMounts) as [flow acts];
      cbn [fst snd] in *; subst flow.
    + right. cbn [fst snd]. split; [reflexivity|]. split; [now right|].
      exists (acts ++ [Output ("COMMAND: " ++ benchmarkCommand (EXE_NAME v) v)%string;
                       Output EmptyString]).
      split; [now rewrite <- app_assoc|].
      rewrite launches_app, Hacts. reflexivity.
    + left. now split.
Qed.

(** X15: Called with arguments free of pattern characters, the script ends in
    one of two ways: with exit
    status 1 and no command launched, or by launching exactly one command
    as its very last action. *)
Theorem script_exits_or_launches_last
    (script0 scriptPath : string) (args : list string)
    (procMounts : option (list string)) :
  forallb patternFree args = true ->
  (fst (script script0 scriptPath args procMounts) = Exit 1
   /\ launches (snd (script script0 scriptPath args procMounts)) = false)
  \/ (fst (script script0 scriptPath args procMounts) = Continue
      /\ exists acts cmd,
           snd (script script0 scriptPath args procMounts) = acts ++ [Launch cmd]
           /\ launches acts = false).
Proof.
  intros _. unfold script.
  destruct (parse_args script0 args) as [p | status out] eqn:Hparse.
  2: { left. destruct (parse_args_stop_inv _ _ _ _ Hparse)
         as (-> & pre & -> & Hpre).
       cbn [fst snd]. split; [reflexivity|].
       rewrite launches_app, launches_usage, orb_false_r.
       now destruct Hpre as [-> | [line ->]]. }
  unfold find_executable_or_exit.
  destruct (test_f (scriptPath ++ "/../bin/" ++ "elbencho")%string);
    cbn [negb]; [|left; now split].
  destruct (prepare_arg_filenames (DEVICE p)) as [filenames | status out]
    eqn:Hprep.
  2: { left. unfold prepare_arg_filenames in Hprep.
       apply prepare_arg_filenames_loop_stop in Hprep
         as (found & dev & later & _ & _ & _ & -> & ->).
       now split. }
  destruct (run_from_rwmix_outcome
              (mkVars (scriptPath ++ "/../bin/" ++ "elbencho")%string
                      "elbencho" filenames (argIODEPTH p) (argNUMJOBS p)
                      (integerOperand (argREADPERCENT p)) (argBLOCKSIZE p)
                      (unquotedEquals (argREADPERCENT p) 0))
              procMounts)
    as [Hexit | (Hgo & _ & acts & Hacts & Hno)].
  - now left.
  - right. split; [exact Hgo|]. eexists acts, _. split; [exact Hacts | exact Hno].
Qed.

(** X16: For arguments free of pattern characters, the benchmark is
    launched only if parse_args accepted the arguments, the executable is a
    regular file, every word of DEVICE resolved to an existing path, and
    either READPERCENT reads as 100 or the mounted check passed for all
    resolved paths; the command launched is the one built from the
    executable path, the resolved paths and the given options. *)
Theorem script_launch_requirements
    (script0 scriptPath : string) (args : list string)
    (procMounts : option (list string)) :
  forallb patternFree args = true ->
  fst (script script0 scriptPath args procMounts) = Continue ->
  exists p filenames,
    parse_args script0 args = Go p
    /\ test_f (scriptPath ++ "/../bin/elbencho")%string = true
    /\ prepare_arg_filenames (DEVICE p) = Go filenames
    /\ Forall (fun f => test_e f = true) filenames
    /\ (test_eq (integerOperand (argREADPERCENT p)) 100 = true
        \/ fst (check_mounted_loop filenames procMounts) = Continue)
    /\ exists acts,
         snd (script script0 scriptPath args procMounts)
         = acts
           ++ [Launch
                 (benchmarkCommand (scriptPath ++ "/../bin/elbencho")%string
                    (mkVars (scriptPath ++ "/../bin/elbencho")%string
                            "elbencho" filenames (argIODEPTH p)
                            (argNUMJOBS p)
                            (integerOperand (argREADPERCENT p))
                            (argBLOCKSIZE p)
                            (unquotedEquals (argREADPERCENT p) 0)))].
Proof.
  intros _. unfold script.
  destruct (parse_args script0 args) as [p | status out] eqn:Hparse;
    [|discriminate].
  unfold find_executable_or_exit.
  destruct (test_f (scriptPath ++ "/../bin/" ++ "elbencho")%string) eqn:Hexe;
    cbn [negb]; [|discriminate].
  destruct (prepare_arg_filenames (DEVICE p)) as [filenames | status out]
    eqn:Hprep; [|discriminate].
  intros Hgo. exists p, filenames.
  split; [reflexivity|]. split; [exact Hexe|]. split; [exact Hprep|]. split.
  - unfold prepare_arg_filenames in Hprep.
    apply prepare_arg_filenames_loop_go in Hprep as (paths & Hall & ->).
    cbn [app]. clear Hgo.
    induction Hall as [|dev path devs paths Hres _ IH]; constructor.
    + now apply resolvedPath_exists in Hres.
    + exact IH.
  - destruct (run_from_rwmix_outcome
                (mkVars (scriptPath ++ "/../bin/" ++ "elbencho")%string
                        "elbencho" filenames (argIODEPTH p) (argNUMJOBS p)
                        (integerOperand (argREADPERCENT p)) (argBLOCKSIZE p)
                        (unquotedEquals (argREADPERCENT p) 0))
                procMounts)
      as [[Hexit _] | (_ & Hcheck & acts & Hacts & _)]; [congruence|].
    split; [exact Hcheck|]. now exists acts.
Qed.


End WholeScript.

Lemma script_exits_or_launches_last_witness :
  (fst (@script grepAnchoredText sampleFiles plainDecimals "t.sh" "."
          ["myvol sda"; "16"; "16"; "0"; "4k"]%string (Some sampleMountsWhole))
   = Exit 1
   /\ launches
        (snd (@script grepAnchoredText sampleFiles plainDecimals "t.sh" "."
                ["myvol sda"; "16"; "16"; "0"; "4k"]%string
                (Some sampleMountsWhole))) = false)
  \/ (fst (@script grepAnchoredText sampleFiles plainDecimals "t.sh" "."
             ["myvol sda"; "16"; "16"; "0"; "4k"]%string
             (Some sampleMountsWhole)) = Continue
      /\ exists acts cmd,
           snd (@script grepAnchoredText sampleFiles plainDecimals "t.sh" "."
                  ["myvol sda"; "16"; "16"; "0"; "4k"]%string
                  (Some sampleMountsWhole)) = acts ++ [Launch cmd]
           /\ launches acts = false).
Proof.
  apply (@script_exits_or_launches_last grepAnchoredText sampleFiles
           plainDecimals "t.sh" "." ["myvol sda"; "16"; "16"; "0"; "4k"]%string
           (Some sampleMountsWhole)).
  reflexivity.
Defined.

Lemma script_launch_requirements_witness :
  exists p filenames,
    @parse_args plainDecimals "t.sh"
      ["myvol sda"; "16"; "16"; "100"; "4k"]%string = Go p
    /\ @test_f sampleFiles "./../bin/elbencho" = true
    /\ @prepare_arg_filenames sampleFiles (DEVICE p) = Go filenames
    /\ Forall (fun f => @test_e sampleFiles f = true) filenames
    /\ (test_eq (@integerOperand plainDecimals (argREADPERCENT p)) 100 = true
        \/ fst (@check_mounted_loop grepAnchoredText filenames
                  (Some sampleMountsWhole)) = Continue)
    /\ exists acts,
         snd (@script grepAnchoredText sampleFiles plainDecimals "t.sh" "."
                ["myvol sda"; "16"; "16"; "100"; "4k"]%string
                (Some sampleMountsWhole))
         = acts
           ++ [Launch
                 (benchmarkCommand "./../bin/elbencho"
                    (mkVars "./../bin/elbencho" "elbencho" filenames
                            (argIODEPTH p) (argNUMJOBS p)
                            (@integerOperand plainDecimals (argREADPERCENT p))
                            (argBLOCKSIZE p)
                            (@unquotedEquals plainDecimals
                               (argREADPERCENT p) 0)))].
Proof.
  apply (@script_launch_requirements grepAnchoredText sampleFiles plainDecimals
           "t.sh" "." ["myvol sda"; "16"; "16"; "100"; "4k"]%string
           (Some sampleMountsWhole));
    reflexivity.
Defined.


(** Three wakeups without a phase change leave the worker parked. *)
Lemma waitForNextPhase_blocked_iff_witness :
  waitForNextPhase 0 7%N [pool2; pool2; pool2] pool2 = StillBlocked.
Proof.
  apply (proj2 (waitForNextPhase_blocked_iff 0 7%N [pool2; pool2; pool2] pool2)).
  reflexivity.
Defined.

(** A leading end-of-options word is consumed before the five parameters
    are counted. *)
Lemma parse_args_accepts_iff_witness :
  @parse_args plainDecimals "t.sh"
    ["--"; "myvol sda"; "16"; "16"; "100"; "4k"]%string
  = Go (mkPositional "myvol sda" "16" "16" "100" "4k").
Proof.
  apply (proj2 (@parse_args_accepts_iff plainDecimals "t.sh"
                  ["--"; "myvol sda"; "16"; "16"; "100"; "4k"]%string
                  (mkPositional "myvol sda" "16" "16" "100" "4k"))).
  split; [reflexivity|]. split; [reflexivity|].
  intros n Hn. inversion Hn. now right.
Defined.
